(** * PPP over Any Transport: the UDP transport module (src/modules/udp.c)

    A shallow embedding of [modules/udp.c] and the properties of its
    resolver, socket set-up and forwarding loop.

    The module talks to the operating system and to the rest of pppoat
    through calls whose code is outside the file.  Those calls are kept as
    data ([call]); their results come from an [oracle], a function of the
    whole history of calls and results so far.  Every function of the module
    is a computation over the [world] (the history and [errno]).  Loops take
    a fuel argument: [None] means that no result was produced, either
    because the fuel ran out or because the C program has no defined
    behaviour (it dereferences a null pointer). *)

From Stdlib Require Import ZArith Lia Bool.
From stdpp Require Import base option list gmap strings pretty.

Local Open Scope Z_scope.

(** ** Constants of the system headers (Linux values) *)

Definition EINTR       : Z := 4.
Definition EAGAIN      : Z := 11.
Definition EWOULDBLOCK : Z := 11.
Definition ENOMEM      : Z := 12.
Definition EPIPE       : Z := 32.
Definition ENOPROTOOPT : Z := 92.
Definition ECONNREFUSED : Z := 111.

Definition AI_PASSIVE    : Z := 1.
Definition AI_ADDRCONFIG : Z := 32.
Definition AF_UNSPEC     : Z := 0.
Definition SOCK_DGRAM    : Z := 2.
Definition IPPROTO_UDP   : Z := 17.

(** ** Constants of the module *)

Definition UDP_PORT_MASTER : N := 0xc001.
Definition UDP_PORT_SLAVE  : N := 0xc001.
Definition UDP_HOST_MASTER : string := "192.168.4.1".
Definition UDP_HOST_SLAVE  : string := "192.168.4.10".

(** [sizeof(buf)] in [module_udp_run]. *)
Definition BUF_SIZE : Z := 4096.

(** Modelled from the spec: [P_ERR] is a macro of trace.h, which is not part
    of the sources at hand.  The spec says that errors are negative numeric
    codes mirroring the OS error, so the macro is the identity on the code
    (whatever it reports to the trace is left out). *)
Definition P_ERR (error : Z) : Z := error.

(** Modelled from the spec: [pppoat_max] is a macro of util.h, the larger of
    two descriptors. *)
Definition pppoat_max (a b : Z) : Z := Z.max a b.

(** ** Data *)

(** [pppoat_node_type_t], as far as the module uses it. *)
Inductive pppoat_node_type_t := PPPOAT_NODE_MASTER | PPPOAT_NODE_SLAVE.

Global Instance pppoat_node_type_eq_dec : EqDecision pppoat_node_type_t.
Proof. solve_decision. Defined.

(** [struct addrinfo], the fields the module reads or writes. *)
Record addrinfo := Addrinfo {
  ai_flags    : Z;
  ai_family   : Z;
  ai_socktype : Z;
  ai_protocol : Z;
  ai_addrlen  : Z;
  ai_addr     : list Byte.byte
}.

(** A non-null [struct addrinfo *]: the address and what it points to (the
    result of a resolution is never modified after it is created). *)
Record addrinfo_ref := AddrinfoRef {
  ap_addr : positive;
  ap_val  : addrinfo
}.

(** [struct pppoat_udp_ctx].  [uc_ainfo] is a pointer: [None] is NULL. *)
Record pppoat_udp_ctx := UdpCtx {
  uc_type  : pppoat_node_type_t;
  uc_ainfo : option addrinfo_ref;
  uc_sock  : Z
}.

(** A non-null [struct pppoat_udp_ctx *]. *)
Record ctx_ref := CtxRef {
  cp_addr : positive;
  cp_val  : pppoat_udp_ctx
}.

(** [fd_set] with its macros. *)
Abbreviation fd_set := (gset Z).

Definition FD_ZERO : fd_set := ∅.
Definition FD_SET (fd : Z) (s : fd_set) : fd_set := {[ fd ]} ∪ s.
Definition FD_ISSET (fd : Z) (s : fd_set) : bool := bool_decide (fd ∈ s).

(** Modelled from the spec: [struct pppoat_conf] and [pppoat_conf_get] are
    declared in conf.h, which is not at hand.  The configuration is a store
    of string options; a missing key reads as NULL. *)
Abbreviation pppoat_conf := (gmap string string).

Definition pppoat_conf_get (conf : pppoat_conf) (key : string) : option string :=
  conf !! key.

(** ** Calls that leave the module *)

Inductive call :=
| pppoat_alloc                       (* pppoat_alloc(sizeof(struct pppoat_udp_ctx)) *)
| pppoat_free (p : positive)
| getaddrinfo (host : option string) (service : string) (hints : addrinfo)
| freeaddrinfo (res : addrinfo_ref)
| socket (family type protocol : Z)
| bind (fd : Z) (addr : list Byte.byte) (addrlen : Z)
| close (fd : Z)
| pppoat_util_fd_nonblock_set (fd : Z) (set : bool)
| pppoat_util_select (maxfd : Z) (rfds wfds : option fd_set)
| read (fd : Z) (count : Z)
| sendto (fd : Z) (buf : list Byte.byte) (len : Z) (flags : Z)
         (addr : list Byte.byte) (addrlen : Z)
| recv (fd : Z) (count : Z) (flags : Z)
| pppoat_util_write (fd : Z) (buf : list Byte.byte) (len : Z).

(** What a call gives back.  A call uses the fields that make sense for it:
    [a_ret] is the returned integer of every call; [a_ptr] is the pointer
    that [pppoat_alloc] returns and the one [getaddrinfo] stores in its
    result argument ([None] is NULL), [a_ai] what the latter points to;
    [a_data] are the bytes that [read] and [recv] store in the buffer;
    [a_rfds] and [a_wfds] are the descriptor sets as [pppoat_util_select]
    leaves them. *)
Record answer := Answer {
  a_ret   : Z;
  a_errno : Z;
  a_ptr   : option positive;
  a_ai    : addrinfo;
  a_data  : list Byte.byte;
  a_rfds  : fd_set;
  a_wfds  : fd_set
}.

Definition event : Type := call * answer.

(** The environment: the answer to a call, given everything that happened
    before it. *)
Definition oracle : Type := list event -> call -> answer.

Record world := World {
  w_trace : list event;   (* oldest first *)
  w_errno : Z
}.

(** ** Computations *)

Definition M (A : Type) : Type := world -> option (A * world).

Global Instance M_ret : MRet M := fun A a w => Some (a, w).

Global Instance M_bind : MBind M := fun A B k m w =>
  match m w with
  | Some (a, w') => k a w'
  | None => None
  end.

(** No defined behaviour, or no fuel left. *)
Definition stuck {A} : M A := fun _ => None.

Definition sys (os : oracle) (c : call) : M answer :=
  fun w =>
    let a := os (w_trace w) c in
    Some (a, {| w_trace := w_trace w ++ [(c, a)]; w_errno := a_errno a |}).

Definition errno : M Z := fun w => Some (w_errno w, w).

(** [snprintf(service, size, "%u", port)]: the decimal digits of [port], cut
    to [size - 1] characters. *)
Definition snprintf_u (size : nat) (port : N) : string :=
  String.substring 0 (size - 1) (pretty port).

(** [buf] after a call has stored [data] at its start. *)
Definition store (data buf : list Byte.byte) : list Byte.byte :=
  data ++ drop (length data) buf.

Section Module.

Variable os : oracle.

(** [pppoat_conf_obj_is_true] is declared in conf.h, which is not at hand,
    and the spec does not say which strings count as true: the test is a
    parameter. *)
Variable pppoat_conf_obj_is_true : string -> bool.

(** ** Endpoint resolver *)

Definition udp_ainfo_get (host : option string) (port : N)
  : M (Z * option addrinfo_ref) :=
  let hints :=
    {| ai_flags    := Z.lor (if host is None then AI_PASSIVE else 0)
                            AI_ADDRCONFIG;
       ai_family   := AF_UNSPEC;
       ai_socktype := SOCK_DGRAM;
       ai_protocol := IPPROTO_UDP;
       ai_addrlen  := 0;
       ai_addr     := [] |} in
  let service := snprintf_u 6 port in
  a ← sys os (getaddrinfo host service hints);
  let rc := a_ret a in
  let ainfo := (fun p => AddrinfoRef p (a_ai a)) <$> a_ptr a in
  if bool_decide (rc ≠ 0)
  then mret (P_ERR (- ENOPROTOOPT), None)
  else mret (rc, ainfo).

Definition udp_ainfo_put (ainfo : option addrinfo_ref) : M unit :=
  match ainfo with
  | Some r => _ ← sys os (freeaddrinfo r); mret tt
  | None => stuck
  end.

(** ** Socket manager *)

(** [sock] is the value of [*sock] before the call; the second component
    of the result is its value after the call. *)
Definition udp_sock_new (port : N) (sock : Z) : M (Z * Z) :=
  '(rc, ainfo) ← udp_ainfo_get None port;
  '(rc, sock) ←
    (if bool_decide (rc = 0) then
       match ainfo with
       | Some r =>
           a ← sys os (socket (ai_family (ap_val r)) (ai_socktype (ap_val r))
                             (ai_protocol (ap_val r)));
           e ← errno;
           let sock := a_ret a in
           mret (if bool_decide (sock < 0) then P_ERR (- e) else 0, sock)
       | None => stuck
       end
     else mret (rc, sock));
  rc ←
    (if bool_decide (rc = 0) then
       match ainfo with
       | Some r =>
           a ← sys os (bind sock (ai_addr (ap_val r)) (ai_addrlen (ap_val r)));
           e ← errno;
           let rc := if bool_decide (a_ret a ≠ 0) then P_ERR (- e) else 0 in
           if bool_decide (rc ≠ 0)
           then _ ← sys os (close sock); mret rc
           else mret rc
       | None => stuck
       end
     else mret rc);
  _ ← (if ainfo is Some _ then udp_ainfo_put ainfo else mret tt);
  mret (rc, sock).

(** ** Module init and fini *)

(** The value that [uc_sock] holds in freshly allocated memory. *)
Variable uc_sock_fresh : Z.

(** The role that the configuration selects. *)
Definition node_type_of (conf : pppoat_conf) : pppoat_node_type_t :=
  let opt := pppoat_conf_get conf "server" in
  if match opt with
     | Some o => pppoat_conf_obj_is_true o
     | None => false
     end
  then PPPOAT_NODE_MASTER else PPPOAT_NODE_SLAVE.

(** The hardcoded [(sport, dport, dhost)] of a role. *)
Definition endpoints_of (type : pppoat_node_type_t) : N * N * string :=
  if decide (type = PPPOAT_NODE_MASTER)
  then (UDP_PORT_MASTER, UDP_PORT_SLAVE, UDP_HOST_SLAVE)
  else (UDP_PORT_SLAVE, UDP_PORT_MASTER, UDP_HOST_MASTER).

(** [userdata] is the value of [*userdata] before the call; the second
    component of the result is its value after the call. *)
Definition module_udp_init (conf : pppoat_conf) (userdata : option ctx_ref)
  : M (Z * option ctx_ref) :=
  let type := node_type_of conf in
  let '(sport, dport, dhost) := endpoints_of type in
  a ← sys os pppoat_alloc;
  let ctx := a_ptr a in
  let rc := if ctx is None then P_ERR (- ENOMEM) else 0 in
  '(rc, val) ←
    (if bool_decide (rc = 0) then
       match ctx with
       | Some p =>
           '(rc, uc_ainfo) ← udp_ainfo_get (Some dhost) dport;
           '(rc, uc_sock) ←
             (if bool_decide (rc ≠ 0) then mret (rc, uc_sock_fresh)
              else udp_sock_new sport uc_sock_fresh);
           _ ← (if bool_decide (rc ≠ 0) then
                  _ ← (if uc_ainfo is Some _ then udp_ainfo_put uc_ainfo
                       else mret tt);
                  _ ← sys os (pppoat_free p);
                  mret tt
                else mret tt);
           mret (rc, UdpCtx type uc_ainfo uc_sock)
       | None => stuck
       end
     else mret (rc, UdpCtx type None uc_sock_fresh));
  if bool_decide (rc = 0)
  then mret (rc, (fun p => CtxRef p val) <$> ctx)
  else mret (rc, userdata).

Definition module_udp_fini (userdata : ctx_ref) : M unit :=
  let ctx := cp_val userdata in
  _ ← sys os (close (uc_sock ctx));
  _ ← udp_ainfo_put (uc_ainfo ctx);
  _ ← sys os (pppoat_free (cp_addr userdata));
  mret tt.

(** ** Forwarding loop *)

Definition udp_error_is_recoverable (error : Z) : bool :=
  (error =? - EAGAIN) || (error =? - EINTR) || (error =? - EWOULDBLOCK).

(** The body of the [do ... while] of [udp_buf_send], from the variables
    [buf], [len] and [rc] of the function to their new values.  [continue]
    leaves the body early; the loop condition is evaluated next in both
    cases. *)
Definition udp_buf_send_body (ctx : pppoat_udp_ctx) (ainfo : addrinfo_ref)
    (buf : list Byte.byte) (len rc : Z) : M (list Byte.byte * Z * Z) :=
  a ← sys os (sendto (uc_sock ctx) (take (Z.to_nat len) buf) len 0
                     (ai_addr (ap_val ainfo)) (ai_addrlen (ap_val ainfo)));
  let len2 := a_ret a in
  e ← errno;
  if (len2 <? 0) && (e =? EINTR) then
    (* continue *)
    mret (buf, len, rc)
  else
    let rc := if (len2 <? 0) && negb (udp_error_is_recoverable (- e))
              then P_ERR (- e) else rc in
    rc ← (if (len2 <? 0) && udp_error_is_recoverable (- e) then
            let wfds := FD_SET (uc_sock ctx) FD_ZERO in
            a ← sys os (pppoat_util_select (uc_sock ctx) None (Some wfds));
            mret (a_ret a)
          else mret rc);
    if 0 <? len2
    then mret (drop (Z.to_nat len2) buf, len - len2, rc)
    else mret (buf, len, rc).

(** [do body while (rc == 0 && len > 0)]: one unit of fuel pays for one
    round. *)
Fixpoint udp_buf_send_loop (fuel : nat) (ctx : pppoat_udp_ctx)
    (ainfo : addrinfo_ref) (buf : list Byte.byte) (len rc : Z) : M Z :=
  match fuel with
  | O => stuck
  | S fuel =>
      '(buf, len, rc) ← udp_buf_send_body ctx ainfo buf len rc;
      if (rc =? 0) && (0 <? len)
      then udp_buf_send_loop fuel ctx ainfo buf len rc
      else mret rc
  end.

Definition udp_buf_send (fuel : nat) (ctx : pppoat_udp_ctx)
    (buf : list Byte.byte) (len : Z) : M Z :=
  match uc_ainfo ctx with
  | Some ainfo => udp_buf_send_loop fuel ctx ainfo buf len 0
  | None => stuck
  end.

(** The two branches of a round of [module_udp_run], from the descriptor
    set that the wait left and the variables [rc] and [buf] to the new
    values of [rc] and [buf].  First the link: [if (FD_ISSET(rd, &rfds))]. *)
Definition module_udp_run_link (fuel : nat) (rd : Z) (ctx : pppoat_udp_ctx)
    (rfds : fd_set) (rc : Z) (buf : list Byte.byte)
  : M (Z * list Byte.byte) :=
  if FD_ISSET rd rfds then
    a ← sys os (read rd BUF_SIZE);
    e ← errno;
    let len := a_ret a in
    let buf := store (a_data a) buf in
    let rc := if len =? 0 then P_ERR (- EPIPE) else rc in
    let rc := if (len <? 0) && negb (udp_error_is_recoverable (- e))
              then P_ERR (- e) else rc in
    if 0 <? len
    then rc ← udp_buf_send fuel ctx buf len; mret (rc, buf)
    else mret (rc, buf)
  else mret (rc, buf).

(** Then the socket: [if (rc == 0 && FD_ISSET(sock, &rfds))]. *)
Definition module_udp_run_sock (wr sock : Z)
    (rfds : fd_set) (rc : Z) (buf : list Byte.byte)
  : M (Z * list Byte.byte) :=
  if (rc =? 0) && FD_ISSET sock rfds then
    a ← sys os (recv sock BUF_SIZE 0);
    e ← errno;
    let len := a_ret a in
    let buf := store (a_data a) buf in
    let rc := if (len <? 0) && negb (udp_error_is_recoverable (- e))
              then P_ERR (- e) else rc in
    if 0 <? len
    then a ← sys os (pppoat_util_write wr (take (Z.to_nat len) buf) len);
         mret (a_ret a, buf)
    else mret (rc, buf)
  else mret (rc, buf).

(** One round of the [while] of [module_udp_run]: the body of the loop,
    from the value of [buf] to the new values of [rc] and [buf]. *)
Definition module_udp_run_body (fuel : nat) (rd wr : Z)
    (ctx : pppoat_udp_ctx) (sock : Z) (buf : list Byte.byte)
  : M (Z * list Byte.byte) :=
  let rfds := FD_SET sock (FD_SET rd FD_ZERO) in
  let max := pppoat_max rd sock in
  a ← sys os (pppoat_util_select max (Some rfds) None);
  let rfds := a_rfds a in
  let rc := a_ret a in
  let rc := if 0 <? rc then 0 else rc in
  '(rc, buf) ← module_udp_run_link fuel rd ctx rfds rc buf;
  module_udp_run_sock wr sock rfds rc buf.

(** [while (rc == 0) body]: leaving the loop costs no fuel, a round costs
    one unit. *)
Fixpoint module_udp_run_loop (fuel : nat) (rd wr : Z)
    (ctx : pppoat_udp_ctx) (sock : Z) (buf : list Byte.byte) (rc : Z) : M Z :=
  if negb (rc =? 0) then mret rc
  else match fuel with
       | O => stuck
       | S fuel =>
           '(rc, buf) ← module_udp_run_body fuel rd wr ctx sock buf;
           module_udp_run_loop fuel rd wr ctx sock buf rc
       end.

(** The buffer of [module_udp_run] starts with indeterminate contents; no
    cell is sent or written before [read] or [recv] has stored into it, so
    the model starts it with zeros. *)
Definition buf_fresh : list Byte.byte :=
  replicate (Z.to_nat BUF_SIZE) Byte.x00.

Definition module_udp_run (fuel : nat) (rd wr ctrl : Z) (userdata : ctx_ref)
  : M Z :=
  let ctx := cp_val userdata in
  let sock := uc_sock ctx in
  a ← sys os (pppoat_util_fd_nonblock_set rd true);
  rc ← (if bool_decide (a_ret a ≠ 0) then mret (a_ret a)
        else a ← sys os (pppoat_util_fd_nonblock_set sock true);
             mret (a_ret a));
  module_udp_run_loop fuel rd wr ctx sock buf_fresh rc.

End Module.

(** ** Observations on a history *)

(** The call that opens a round of [module_udp_run], the read that may
    follow it and the receive on the socket. *)
Definition run_select (rd sock : Z) : call :=
  pppoat_util_select (pppoat_max rd sock)
                     (Some (FD_SET sock (FD_SET rd FD_ZERO))) None.

Definition run_read (rd : Z) : call := read rd BUF_SIZE.

Definition run_recv (sock : Z) : call := recv sock BUF_SIZE 0.

(** The datagram that [udp_buf_send] offers for the bytes it still has, and
    its wait for a writable socket. *)
Definition send_call (ctx : pppoat_udp_ctx) (ainfo : addrinfo_ref)
    (buf : list Byte.byte) (len : Z) : call :=
  sendto (uc_sock ctx) (take (Z.to_nat len) buf) len 0
         (ai_addr (ap_val ainfo)) (ai_addrlen (ap_val ainfo)).

Definition send_wait (ctx : pppoat_udp_ctx) : call :=
  pppoat_util_select (uc_sock ctx) None (Some (FD_SET (uc_sock ctx) FD_ZERO)).

(** The lookup that [udp_ainfo_get] makes. *)
Definition ainfo_lookup (host : option string) (port : N) : call :=
  getaddrinfo host (snprintf_u 6 port)
    {| ai_flags    := Z.lor (if host is None then AI_PASSIVE else 0)
                            AI_ADDRCONFIG;
       ai_family   := AF_UNSPEC;
       ai_socktype := SOCK_DGRAM;
       ai_protocol := IPPROTO_UDP;
       ai_addrlen  := 0;
       ai_addr     := [] |}.

(** The number of bytes that the [sendto] calls of a history took, and the
    bytes themselves, in the order of the calls. *)
Definition sent_len (e : event) : Z :=
  match e.1 with
  | sendto _ _ _ _ _ _ => Z.max 0 (a_ret e.2)
  | _ => 0
  end.

Definition sent_chunk (e : event) : list Byte.byte :=
  match e.1 with
  | sendto _ buf _ _ _ _ => take (Z.to_nat (a_ret e.2)) buf
  | _ => []
  end.

Definition sent_total (evs : list event) : Z :=
  foldr (fun e n => sent_len e + n) 0 evs.

Definition sent_bytes (evs : list event) : list Byte.byte :=
  concat (map sent_chunk evs).

(** The calls that [udp_buf_send] makes for a context: a datagram to the
    remote address, or a wait for the socket to become writable. *)
Definition is_send_call (ctx : pppoat_udp_ctx) (ainfo : addrinfo_ref)
    (c : call) : Prop :=
  match c with
  | sendto fd _ _ flags addr addrlen =>
      fd = uc_sock ctx ∧ flags = 0 ∧
      addr = ai_addr (ap_val ainfo) ∧ addrlen = ai_addrlen (ap_val ainfo)
  | pppoat_util_select maxfd None (Some wfds) =>
      maxfd = uc_sock ctx ∧ wfds = FD_SET (uc_sock ctx) FD_ZERO
  | _ => False
  end.

Definition is_link_write (c : call) : bool :=
  match c with
  | pppoat_util_write _ _ _ => true
  | _ => false
  end.

Definition is_recv (c : call) : bool :=
  match c with
  | recv _ _ _ => true
  | _ => false
  end.

(** The calls of the forwarding loop: they move bytes or wait, and neither
    take nor give back a resource. *)
Definition is_io_call (c : call) : bool :=
  match c with
  | pppoat_util_fd_nonblock_set _ _ | pppoat_util_select _ _ _ | read _ _
  | sendto _ _ _ _ _ _ | recv _ _ _ | pppoat_util_write _ _ _ => true
  | _ => false
  end.

(** The descriptors that a call is given. *)
Definition call_fds (c : call) : list Z :=
  match c with
  | pppoat_alloc | pppoat_free _ | getaddrinfo _ _ _ | freeaddrinfo _
  | socket _ _ _ => []
  | bind fd _ _ | close fd | pppoat_util_fd_nonblock_set fd _ | read fd _
  | sendto fd _ _ _ _ _ | recv fd _ _ | pppoat_util_write fd _ _ => [fd]
  | pppoat_util_select maxfd rfds wfds =>
      maxfd :: elements (default ∅ rfds) ++ elements (default ∅ wfds)
  end.

(** The calls of [evs] are given no other descriptors than [fds]. *)
Definition uses_only (fds : list Z) (evs : list event) : Prop :=
  Forall (λ ev, ∀ fd, fd ∈ call_fds ev.1 → fd ∈ fds) evs.

(** Resources taken and given back in a history: resolved address lists,
    socket descriptors and memory blocks. *)
Definition ainfo_taken (e : event) : list addrinfo_ref :=
  match e.1 with
  | getaddrinfo _ _ _ =>
      if bool_decide (a_ret e.2 = 0)
      then match a_ptr e.2 with
           | Some p => [AddrinfoRef p (a_ai e.2)]
           | None => []
           end
      else []
  | _ => []
  end.

Definition ainfo_given (e : event) : list addrinfo_ref :=
  match e.1 with
  | freeaddrinfo r => [r]
  | _ => []
  end.

Definition sock_taken (e : event) : list Z :=
  match e.1 with
  | socket _ _ _ => if bool_decide (a_ret e.2 < 0) then [] else [a_ret e.2]
  | _ => []
  end.

Definition sock_given (e : event) : list Z :=
  match e.1 with
  | close fd => [fd]
  | _ => []
  end.

Definition mem_taken (e : event) : list positive :=
  match e.1 with
  | pppoat_alloc => match a_ptr e.2 with Some p => [p] | None => [] end
  | _ => []
  end.

Definition mem_given (e : event) : list positive :=
  match e.1 with
  | pppoat_free p => [p]
  | _ => []
  end.

(** Every resource taken in [evs] is given back once in [evs]. *)
Definition balanced (evs : list event) : Prop :=
  evs ≫= ainfo_taken ≡ₚ evs ≫= ainfo_given ∧
  evs ≫= sock_taken ≡ₚ evs ≫= sock_given ∧
  evs ≫= mem_taken ≡ₚ evs ≫= mem_given.

(** A [socket] or [bind] call that failed. *)
Definition socket_failed (e : event) : Prop :=
  match e.1 with
  | socket _ _ _ => a_ret e.2 < 0
  | bind _ _ _ => a_ret e.2 ≠ 0
  | _ => False
  end.

(** ** Assumptions on the environment *)

(** [sendto] never takes more bytes than it was given. *)
Definition sendto_bounded (os : oracle) : Prop :=
  ∀ h fd buf len flags addr addrlen,
    0 ≤ len → a_ret (os h (sendto fd buf len flags addr addrlen)) ≤ len.

(** A socket under load: a failed [sendto] is a transient failure, the wait
    for a writable socket returns 0, and from the [n]-th call of the history
    on the socket takes what it is given. *)
Definition transient_only (os : oracle) : Prop :=
  ∀ h fd buf len flags addr addrlen,
    a_ret (os h (sendto fd buf len flags addr addrlen)) < 0 →
    udp_error_is_recoverable
      (- a_errno (os h (sendto fd buf len flags addr addrlen))) = true.

Definition wait_succeeds (os : oracle) : Prop :=
  ∀ h maxfd wfds,
    a_ret (os h (pppoat_util_select maxfd None (Some wfds))) = 0.

Definition takes_all_after (os : oracle) (n : nat) : Prop :=
  ∀ h fd buf len flags addr addrlen,
    (n ≤ length h)%nat →
    a_ret (os h (sendto fd buf len flags addr addrlen)) = len.

(** A successful [getaddrinfo] stores a non-null list; a failed [socket] or
    [bind] sets [errno] to an error number, which is not zero. *)
Definition resolver_sound (os : oracle) : Prop :=
  ∀ h host service hints,
    a_ret (os h (getaddrinfo host service hints)) = 0 →
    is_Some (a_ptr (os h (getaddrinfo host service hints))).

Definition errno_set (os : oracle) : Prop :=
  (∀ h f t p, a_ret (os h (socket f t p)) < 0 →
              a_errno (os h (socket f t p)) ≠ 0) ∧
  (∀ h fd addr len, a_ret (os h (bind fd addr len)) ≠ 0 →
                    a_errno (os h (bind fd addr len)) ≠ 0).

(** ** Environments for examples *)

Definition addrinfo0 : addrinfo := Addrinfo 0 0 0 0 0 [].

Definition answer0 : answer := Answer 0 0 None addrinfo0 [] ∅ ∅.

(** A call that returns [r] and leaves [e] in [errno]. *)
Definition returns (r e : Z) : answer := Answer r e None addrinfo0 [] ∅ ∅.

(** The [n]-th call of the history gets the [n]-th answer of the script;
    past its end every call gets [answer0]. *)
Definition scripted (script : list answer) : oracle :=
  fun h _ => default answer0 (script !! length h).

Definition world0 : world := World [] 0.

(** The world after [module_udp_run] has made the link (descriptor 3) and
    the socket (descriptor 5) non-blocking. *)
Definition world_started : world :=
  World [(pppoat_util_fd_nonblock_set 3 true, returns 0 0);
         (pppoat_util_fd_nonblock_set 5 true, returns 0 0)] 0.

(** The world and the value that a computation ended with. *)
Definition outcome_world {A} (r : option (A * world)) : world :=
  from_option snd world0 r.

Definition outcome_value {A} (d : A) (r : option (A * world)) : A :=
  from_option fst d r.

(** A context as [module_udp_init] hands it out: socket 5, the remote
    address behind pointer 2. *)
Definition ctx0 : ctx_ref :=
  CtxRef 1 (UdpCtx PPPOAT_NODE_MASTER (Some (AddrinfoRef 2 addrinfo0)) 5).

(** The wait reports the link (descriptor 3) readable. *)
Definition link_ready : answer := Answer 1 0 None addrinfo0 [] {[ 3 ]} ∅.

(** The wait reports the socket (descriptor 5) readable. *)
Definition sock_ready : answer := Answer 1 0 None addrinfo0 [] {[ 5 ]} ∅.

(** [read] stores three bytes. *)
Definition three_bytes : answer :=
  Answer 3 0 None addrinfo0 [Byte.x01; Byte.x02; Byte.x03] ∅ ∅.

(** The link delivers three bytes, the datagram would block, and the wait
    for a writable socket reports one ready descriptor. *)
Definition os_wouldblock : oracle :=
  scripted [returns 0 0; returns 0 0; link_ready; three_bytes;
            returns (-1) EAGAIN; returns 1 0].

(** The wait fails with ENOMEM and leaves the descriptor sets as they were
    passed in; the link has three bytes, which the socket takes; nothing is
    to be received.  In the next round the link is at its end. *)
Definition os_select_fails : oracle :=
  scripted [returns 0 0; returns 0 0;
            Answer (- ENOMEM) ENOMEM None addrinfo0 [] {[ 3; 5 ]} ∅;
            three_bytes; returns 3 0; returns (-1) EAGAIN;
            link_ready; returns 0 0].

(** The link is readable and at its end. *)
Definition os_link_closed : oracle :=
  scripted [returns 0 0; returns 0 0; link_ready; returns 0 0].

(** An empty datagram arrives. *)
Definition os_empty_datagram : oracle :=
  scripted [returns 0 0; returns 0 0; sock_ready; returns 0 0].

(** The name lookup fails with EAI_NONAME. *)
Definition os_no_name : oracle := scripted [returns (-2) 0].

(** A socket that first would block, then is interrupted, then takes two
    bytes at a time. *)
Definition os_slow_socket : oracle :=
  fun h c =>
    match c with
    | sendto _ _ len _ _ _ =>
        if (length h =? 0)%nat then returns (-1) EAGAIN
        else if (length h =? 2)%nat then returns (-1) EINTR
        else returns (Z.min len 2) 0
    | _ => answer0
    end.

(** A socket that would block until four calls have been made and then
    takes what it is given. *)
Definition os_busy_socket : oracle :=
  fun h c =>
    match c with
    | sendto _ _ len _ _ _ =>
        if (length h <? 4)%nat then returns (-1) EAGAIN else returns len EAGAIN
    | _ => answer0
    end.

Definition five_bytes : list Byte.byte :=
  [Byte.x01; Byte.x02; Byte.x03; Byte.x04; Byte.x05].

(** Every call succeeds: memory at 7, address lists at fresh pointers,
    socket 5. *)
Definition os_all_good : oracle :=
  fun h c =>
    match c with
    | pppoat_alloc => Answer 0 0 (Some 7%positive) addrinfo0 [] ∅ ∅
    | getaddrinfo _ _ _ =>
        Answer 0 0 (Some (Pos.of_succ_nat (length h)))
               (Addrinfo 0 2 SOCK_DGRAM IPPROTO_UDP 16 []) [] ∅ ∅
    | socket _ _ _ => returns 5 0
    | _ => answer0
    end.

(** As [os_all_good], but the port is taken: [bind] fails with
    EADDRINUSE. *)
Definition os_port_taken : oracle :=
  fun h c =>
    match c with
    | bind _ _ _ => returns (-1) 98
    | _ => os_all_good h c
    end.

(** [pppoat_alloc] returns NULL. *)
Definition os_no_memory : oracle := scripted [returns 0 ENOMEM].

(** Memory at 7, then the lookup of the remote host fails with
    EAI_NONAME. *)
Definition os_no_route : oracle :=
  scripted [Answer 0 0 (Some 7%positive) addrinfo0 [] ∅ ∅; returns (-2) 0].

(** A socket that takes two bytes and then refuses. *)
Definition os_broken_socket : oracle :=
  fun h c =>
    match c with
    | sendto _ _ len _ _ _ =>
        if (length h =? 0)%nat then returns (Z.min len 2) 0
        else returns (-1) ECONNREFUSED
    | _ => answer0
    end.

(** The link has three bytes; the socket takes two bytes at a time. *)
Definition os_link_to_socket : oracle :=
  fun h c =>
    match c with
    | read _ _ => three_bytes
    | sendto _ _ len _ _ _ => returns (Z.min len 2) 0
    | _ => answer0
    end.

(** As [os_all_good], and the link is at its end when the loop starts. *)
Definition os_short_session : oracle :=
  fun h c =>
    match c with
    | pppoat_util_select _ _ _ => link_ready
    | read _ _ => returns 0 0
    | _ => os_all_good h c
    end.

(** The server option is set, and every non-empty string counts as true. *)
Definition conf_server : pppoat_conf := {[ "server" := "1" ]}.

Definition non_empty (s : string) : bool := negb (String.eqb s "").

(** ** Specifications of computations *)

(** [wlp m w Q]: if [m] produces a result from [w], the result and the new
    world satisfy [Q].  [wp m w Q]: [m] produces a result from [w], and they
    satisfy [Q]. *)
Definition wlp {A} (m : M A) (w : world) (Q : A → world → Prop) : Prop :=
  ∀ a w', m w = Some (a, w') → Q a w'.

Definition wp {A} (m : M A) (w : world) (Q : A → world → Prop) : Prop :=
  ∃ a w', m w = Some (a, w') ∧ Q a w'.

(** What [udp_sock_new] leaves behind: the address list it resolved is given
    back, no memory is taken; on success the history is the lookup, the
    socket, the bind to the resolved address and the release of the list;
    on failure, in an environment that sets [errno], every socket that was
    created is closed again. *)
Definition sock_new_post (os : oracle) (port : N) (w : world)
    (rc sock' : Z) (w' : world) : Prop :=
  ∃ evs, w_trace w' = w_trace w ++ evs ∧
    evs ≫= ainfo_taken = evs ≫= ainfo_given ∧
    evs ≫= mem_taken = [] ∧ evs ≫= mem_given = [] ∧
    (rc = 0 → ∃ aL pL aS aB aF,
        evs = [(ainfo_lookup None port, aL);
               (socket (ai_family (a_ai aL)) (ai_socktype (a_ai aL))
                       (ai_protocol (a_ai aL)), aS);
               (bind sock' (ai_addr (a_ai aL)) (ai_addrlen (a_ai aL)), aB);
               (freeaddrinfo (AddrinfoRef pL (a_ai aL)), aF)] ∧
        a_ret aL = 0 ∧ a_ptr aL = Some pL ∧ sock' = a_ret aS) ∧
    (errno_set os →
     (Exists socket_failed evs → rc ≠ 0) ∧
     (rc ≠ 0 → evs ≫= sock_taken = evs ≫= sock_given)).

(** The history of a successful [module_udp_init] for a role and its
    endpoints, and the context it hands out. *)
Definition init_success (type : pppoat_node_type_t) (evs : list event)
    (ud' : option ctx_ref) : Prop :=
  let sport := (endpoints_of type).1.1 in
  let dport := (endpoints_of type).1.2 in
  let dhost := (endpoints_of type).2 in
  ∃ aA p aR aL pL aS aB aF,
    evs = [(pppoat_alloc, aA);
           (ainfo_lookup (Some dhost) dport, aR);
           (ainfo_lookup None sport, aL);
           (socket (ai_family (a_ai aL)) (ai_socktype (a_ai aL))
                   (ai_protocol (a_ai aL)), aS);
           (bind (a_ret aS) (ai_addr (a_ai aL)) (ai_addrlen (a_ai aL)), aB);
           (freeaddrinfo (AddrinfoRef pL (a_ai aL)), aF)] ∧
    a_ptr aA = Some p ∧ a_ret aR = 0 ∧ a_ret aL = 0 ∧ a_ptr aL = Some pL ∧
    ud' = Some (CtxRef p (UdpCtx type
                            ((λ q, AddrinfoRef q (a_ai aR)) <$> a_ptr aR)
                            (a_ret aS))).

Definition init_post (os : oracle) (is_true : string → bool)
    (conf : pppoat_conf) (ud : option ctx_ref) (w : world)
    (rc : Z) (ud' : option ctx_ref) (w' : world) : Prop :=
  ∃ evs, w_trace w' = w_trace w ++ evs ∧
    (rc = 0 → init_success (node_type_of is_true conf) evs ud') ∧
    (errno_set os →
     (Exists socket_failed evs → rc ≠ 0) ∧
     (rc ≠ 0 → balanced evs ∧ ud' = ud)).

(** * Properties *)

(** ** Rules for computations *)

Lemma bind_Some {A B} (m : M A) (k : A → M B) w r :
  (m ≫= k) w = Some r ↔ ∃ a w1, m w = Some (a, w1) ∧ k a w1 = Some r.
Proof.
  unfold mbind, M_bind. destruct (m w) as [[a w1]|]; split.
  - intros H. eauto.
  - intros (a' & w' & [= -> ->] & H). done.
  - done.
  - intros (? & ? & ? & _). done.
Qed.

Lemma bind_eq {A B} (m : M A) (k : A → M B) w a w1 :
  m w = Some (a, w1) → (m ≫= k) w = k a w1.
Proof. unfold mbind, M_bind. by intros ->. Qed.

Lemma sys_eq os c w :
  sys os c w = Some (os (w_trace w) c,
                     World (w_trace w ++ [(c, os (w_trace w) c)])
                           (a_errno (os (w_trace w) c))).
Proof. done. Qed.

Lemma list_bind_nil {A B} (f : A → list B) : [] ≫= f = [].
Proof. reflexivity. Qed.

Lemma wlp_ret {A} (a : A) w Q : Q a w → wlp (mret a) w Q.
Proof. intros H ?? [= <- <-]. done. Qed.

Lemma wlp_bind {A B} (m : M A) (k : A → M B) w Q :
  wlp m w (λ a w1, wlp (k a) w1 Q) → wlp (m ≫= k) w Q.
Proof.
  intros H b w'. unfold mbind, M_bind.
  destruct (m w) as [[a w1]|] eqn:Hm; [|done]. by apply H.
Qed.

Lemma wlp_sys_eq os c w Q :
  (∀ a, a = os (w_trace w) c →
        Q a (World (w_trace w ++ [(c, a)]) (a_errno a))) →
  wlp (sys os c) w Q.
Proof. intros H ?? [= <- <-]. by apply H. Qed.

Lemma wlp_errno w Q : Q (w_errno w) w → wlp errno w Q.
Proof. intros H ?? [= <- <-]. done. Qed.

Lemma wlp_stuck {A} w (Q : A → world → Prop) : wlp stuck w Q.
Proof. intros ?? [=]. Qed.

Lemma wlp_mono {A} (m : M A) w (Q Q' : A → world → Prop) :
  wlp m w Q → (∀ a w', Q a w' → Q' a w') → wlp m w Q'.
Proof. intros H HQ a w' Hm. by apply HQ, H. Qed.

Lemma wp_ret {A} (a : A) w Q : Q a w → wp (mret a) w Q.
Proof. intros H. by exists a, w. Qed.

Lemma wp_bind {A B} (m : M A) (k : A → M B) w Q :
  wp m w (λ a w1, wp (k a) w1 Q) → wp (m ≫= k) w Q.
Proof.
  intros (a & w1 & Hm & b & w' & Hk & HQ). exists b, w'.
  split; [|done]. unfold mbind, M_bind. by rewrite Hm.
Qed.

Lemma wp_sys_eq os c w Q :
  (∀ a, a = os (w_trace w) c →
        Q a (World (w_trace w ++ [(c, a)]) (a_errno a))) →
  wp (sys os c) w Q.
Proof. intros H. eexists _, _. split; [reflexivity|]. by apply H. Qed.

Lemma wp_errno w Q : Q (w_errno w) w → wp errno w Q.
Proof. intros H. by exists (w_errno w), w. Qed.

Lemma wp_mono {A} (m : M A) w (Q Q' : A → world → Prop) :
  wp m w Q → (∀ a w', Q a w' → Q' a w') → wp m w Q'.
Proof. intros (a & w' & Hm & HQ) H. exists a, w'. auto. Qed.

(** A computation has one result. *)
Lemma wp_wlp {A} (m : M A) w (Q Q' : A → world → Prop) :
  wp m w Q → wlp m w Q' → wp m w (λ a w', Q a w' ∧ Q' a w').
Proof. intros (a & w' & Hm & HQ) H. exists a, w'. auto. Qed.

Lemma wp_eq {A} (m : M A) w (x : A) (y : world) :
  wp m w (λ a w', a = x ∧ w' = y) → m w = Some (x, y).
Proof. by intros (a & w' & Hm & -> & ->). Qed.

(** One step of a computation at the head of the goal. *)
Ltac wlp_step :=
  first [ apply wlp_bind | apply wlp_errno | apply wlp_ret | apply wlp_stuck ];
  cbn [w_trace w_errno].

(** All steps, with a case for each test on the way. *)
Ltac wlp_go :=
  repeat (cbn beta iota;
    lazymatch goal with
    | |- wlp (mret _) _ _ => apply wlp_ret
    | |- wlp (_ ≫= _) _ _ => apply wlp_bind
    | |- wlp (sys _ _) _ _ =>
        apply wlp_sys_eq; intros ? ?; cbn [w_trace w_errno ap_val ap_addr]
    | |- wlp errno _ _ => apply wlp_errno; cbn [w_errno]
    | |- wlp stuck _ _ => apply wlp_stuck
    | |- wlp (if bool_decide ?P then _ else _) _ _ =>
        destruct (decide P);
        [rewrite (bool_decide_eq_true_2 P) by done
        |rewrite (bool_decide_eq_false_2 P) by done]
    | |- wlp (match (_ <$> ?x) with _ => _ end) _ _ =>
        destruct x eqn:?; cbn [fmap option_fmap option_map]
    | |- wlp (match ?x with _ => _ end) _ _ => destruct x eqn:?
    end).

Ltac wp_go :=
  repeat (cbn beta iota;
    lazymatch goal with
    | |- wp (mret _) _ _ => apply wp_ret
    | |- wp (_ ≫= _) _ _ => apply wp_bind
    | |- wp (sys _ _) _ _ =>
        apply wp_sys_eq; intros ? ?; cbn [w_trace w_errno ap_val ap_addr]
    | |- wp errno _ _ => apply wp_errno; cbn [w_errno]
    | |- wp (if bool_decide ?P then _ else _) _ _ =>
        destruct (decide P);
        [rewrite (bool_decide_eq_true_2 P) by done
        |rewrite (bool_decide_eq_false_2 P) by done]
    | |- wp (match (_ <$> ?x) with _ => _ end) _ _ =>
        destruct x eqn:?; cbn [fmap option_fmap option_map]
    | |- wp (match ?x with _ => _ end) _ _ => destruct x eqn:?
    end).

(** Membership in the small lists and sets of descriptors. *)
Ltac fd_solve :=
  intros;
  repeat (rewrite ?elem_of_cons, ?elem_of_nil, ?elem_of_app,
            ?elem_of_elements, ?elem_of_union, ?elem_of_singleton,
            ?elem_of_empty in *);
  intuition (subst; auto).

Lemma sent_total_app evs1 evs2 :
  sent_total (evs1 ++ evs2) = sent_total evs1 + sent_total evs2.
Proof. induction evs1 as [|e evs1 IH]; simpl; lia. Qed.

Lemma sent_bytes_app evs1 evs2 :
  sent_bytes (evs1 ++ evs2) = sent_bytes evs1 ++ sent_bytes evs2.
Proof. unfold sent_bytes. by rewrite map_app, concat_app. Qed.

(** ** The service string *)

(** The decimal digits of a number below [10 ^ k] are at most [k]. *)
Lemma pretty_N_go_length k x s :
  (x < 10 ^ N.of_nat k)%N →
  (String.length (pretty_N_go x s) ≤ k + String.length s)%nat.
Proof.
  revert x s. induction k as [|k IH]; intros x s Hx.
  - assert (x = 0%N) as -> by (simpl in Hx; lia).
    rewrite pretty_N_go_0. lia.
  - destruct (decide (x = 0%N)) as [->|Hne].
    { rewrite pretty_N_go_0. lia. }
    rewrite pretty_N_go_step by lia.
    etrans; [apply IH|simpl; lia].
    rewrite Nat2N.inj_succ, N.pow_succ_r' in Hx.
    apply N.Div0.div_lt_upper_bound. lia.
Qed.

Lemma pretty_N_length k (x : N) :
  (0 < k)%nat → (x < 10 ^ N.of_nat k)%N → (String.length (pretty x) ≤ k)%nat.
Proof.
  intros Hk Hx. unfold pretty, pretty_N.
  destruct (decide (x = 0%N)); [simpl; lia|].
  etrans; [by apply pretty_N_go_length|]. simpl. lia.
Qed.

Lemma substring_all n s :
  (String.length s ≤ n)%nat → String.substring 0 n s = s.
Proof.
  revert n. induction s as [|c s IH]; intros [|n] Hn; simpl in *;
    try done; try lia.
  f_equal. apply IH. lia.
Qed.

(** X1: the buffer of six characters that [udp_ainfo_get] prints the port
    into holds every port: for a 16-bit port the service string is the
    whole decimal numeral, at most five digits, and two ports have the same
    string only if they are equal. *)
Theorem snprintf_u_port_exact (port : N) :
  (port < 65536)%N →
  snprintf_u 6 port = pretty port ∧
  (String.length (snprintf_u 6 port) ≤ 5)%nat ∧
  ∀ q : N, (q < 65536)%N → snprintf_u 6 q = snprintf_u 6 port → q = port.
Proof.
  assert (∀ p : N, (p < 65536)%N → snprintf_u 6 p = pretty p ∧
                   (String.length (pretty p) ≤ 5)%nat) as Hexact.
  { intros p Hp.
    assert (String.length (pretty p) ≤ 5)%nat as Hlen.
    { apply pretty_N_length; [lia|]. simpl. lia. }
    split; [|done]. unfold snprintf_u. by apply substring_all. }
  intros Hport. destruct (Hexact port Hport) as [Heq Hlen].
  split; [done|]. split; [by rewrite Heq|].
  intros q Hq. rewrite Heq, (proj1 (Hexact q Hq)). apply (inj pretty).
Qed.

(** ** The resolver, the socket manager and module init *)

Section Init.

Variable os : oracle.
Variable is_true : string → bool.
Variable fresh : Z.

Lemma errno_set_socket h f t p a :
  errno_set os → a = os h (socket f t p) → a_ret a < 0 → a_errno a ≠ 0.
Proof. intros [H _] ->. apply H. Qed.

Lemma errno_set_bind h fd addr len a :
  errno_set os → a = os h (bind fd addr len) → a_ret a ≠ 0 → a_errno a ≠ 0.
Proof. intros [_ H] ->. apply H. Qed.

Lemma resolver_sound_ptr h host service hints a :
  resolver_sound os → a = os h (getaddrinfo host service hints) →
  a_ret a = 0 → a_ptr a = None → False.
Proof.
  intros H -> Hret Hptr. destruct (H _ _ _ _ Hret) as [? ?]. congruence.
Qed.

(** C10: when the name lookup fails, whatever its code, [udp_ainfo_get]
    returns [-ENOPROTOOPT] and leaves NULL in the caller's pointer; the
    lookup is its only call. *)
Theorem udp_ainfo_get_lookup_failure host port w :
  let c := ainfo_lookup host port in
  let a := os (w_trace w) c in
  a_ret a ≠ 0 →
  udp_ainfo_get os host port w
  = Some ((- ENOPROTOOPT, None), World (w_trace w ++ [(c, a)]) (a_errno a)).
Proof.
  intros c a Hrc. unfold udp_ainfo_get.
  rewrite (bind_eq _ _ _ _ _ (sys_eq _ _ _)).
  fold c a. rewrite bool_decide_eq_true_2 by done. done.
Qed.

Lemma udp_ainfo_get_wlp host port w :
  wlp (udp_ainfo_get os host port) w (λ '(rc, ainfo) w',
    ∃ a, w_trace w' = w_trace w ++ [(ainfo_lookup host port, a)] ∧
         a = os (w_trace w) (ainfo_lookup host port) ∧
         ainfo_taken (ainfo_lookup host port, a) = option_list ainfo ∧
         (rc = 0 → a_ret a = 0 ∧
                   ainfo = (λ p, AddrinfoRef p (a_ai a)) <$> a_ptr a) ∧
         (rc ≠ 0 → ainfo = None)).
Proof.
  unfold udp_ainfo_get. fold (ainfo_lookup host port).
  wlp_step. apply wlp_sys_eq. intros a Ha.
  destruct (decide (a_ret a = 0)) as [Hrc|Hrc].
  - rewrite bool_decide_eq_false_2 by (by intros []). wlp_step. exists a.
    unfold ainfo_taken; simpl. rewrite Hrc, bool_decide_eq_true_2 by done.
    destruct (a_ptr a); done.
  - rewrite bool_decide_eq_true_2 by done. wlp_step. exists a.
    unfold ainfo_taken; simpl. rewrite bool_decide_eq_false_2 by done. done.
Qed.

Lemma udp_sock_new_wlp port sock w :
  wlp (udp_sock_new os port sock) w
      (λ '(rc, sock') w', sock_new_post os port w rc sock' w').
Proof.
  unfold udp_sock_new, udp_ainfo_get, udp_ainfo_put.
  fold (ainfo_lookup None port).
  wlp_go.
  all: unfold sock_new_post; cbn [w_trace].
  all: eexists; (split; [rewrite <- ?app_assoc; simpl; reflexivity|]).
  all: unfold ainfo_lookup, ainfo_taken, ainfo_given, mem_taken, mem_given,
         sock_taken, sock_given, P_ERR in *; cbn.
  all: rewrite ?Exists_cons, ?Exists_nil; unfold socket_failed; cbn.
  all: repeat case_bool_decide; try done.
  all: repeat match goal with H : a_ptr _ = _ |- _ => rewrite H end.
  all: repeat split; try done; try lia.
  all: try (intros; exfalso;
            match goal with
            | He : errno_set os, Ha : ?a = os _ (socket _ _ _),
              Hn : a_ret ?a < 0 |- _ =>
                pose proof (errno_set_socket _ _ _ _ _ He Ha Hn); lia
            | He : errno_set os, Ha : ?a = os _ (bind _ _ _),
              Hn : a_ret ?a ≠ 0 |- _ =>
                pose proof (errno_set_bind _ _ _ _ _ He Ha Hn); lia
            end).
  all: try (intros; eexists _, _, _, _, _; done).
Qed.

Lemma udp_sock_new_total port sock w :
  resolver_sound os → wp (udp_sock_new os port sock) w (λ _ _, True).
Proof.
  intros Hrs. unfold udp_sock_new, udp_ainfo_get, udp_ainfo_put.
  wp_go; try done.
  all: exfalso; eauto using resolver_sound_ptr.
Qed.

Lemma module_udp_init_wlp conf ud w :
  wlp (module_udp_init os is_true fresh conf ud) w
      (λ '(rc, ud') w', init_post os is_true conf ud w rc ud' w').
Proof.
  unfold module_udp_init.
  destruct (endpoints_of (node_type_of is_true conf))
    as [[sport dport] dhost] eqn:Hep.
  wlp_step. apply wlp_sys_eq. intros aA HaA. cbn [w_trace w_errno].
  destruct (a_ptr aA) as [p|] eqn:Hp; cbn beta iota zeta.
  - rewrite bool_decide_eq_true_2 by done. wlp_step. wlp_step.
    eapply wlp_mono; [apply udp_ainfo_get_wlp|].
    intros [rcR uc_ainfo] w1 (aR & Htr1 & HaR & Htaken & Hok & Hfail).
    cbn [w_trace] in *. wlp_step.
    destruct (decide (rcR = 0)) as [HrcR|HrcR].
    + rewrite (bool_decide_eq_false_2 (rcR ≠ 0)) by (by intros []).
      eapply wlp_mono; [apply udp_sock_new_wlp|].
      intros [rc sock'] w2 (evs & Htr2 & Hai & Hmt & Hmg & Hsucc & Hset).
      destruct (decide (rc = 0)) as [Hrc|Hrc].
      * (* success *)
        rewrite (bool_decide_eq_false_2 (rc ≠ 0)) by (by intros []).
        do 3 wlp_step. cbn beta iota.
        rewrite bool_decide_eq_true_2 by done. wlp_step.
        unfold init_post, init_success. rewrite Hep. cbn [fst snd].
        exists ([(pppoat_alloc, aA); (ainfo_lookup (Some dhost) dport, aR)]
                ++ evs).
        split; [by rewrite Htr2, Htr1, <- !app_assoc|].
        destruct (Hok HrcR) as [HretR ->].
        split.
        -- intros _.
           destruct (Hsucc Hrc)
             as (aL & pL & aS & aB & aF & -> & ? & ? & ->).
           by eexists aA, p, aR, aL, pL, aS, aB, aF.
        -- intros Hes. destruct (Hset Hes) as [Hex _]. split; [|done].
           intros Hex'. apply Hex. cbn [app] in Hex'.
           rewrite !Exists_cons in Hex'. by destruct Hex' as [[]|[[]|?]].
      * (* the socket could not be set up *)
        rewrite (bool_decide_eq_true_2 (rc ≠ 0)) by done.
        do 2 wlp_step.
        assert (∀ wa evs',
          w_trace wa = w_trace w2 ++ evs' →
          evs' ≫= ainfo_taken = [] →
          evs' ≫= ainfo_given = option_list uc_ainfo →
          evs' ≫= sock_taken = [] → evs' ≫= sock_given = [] →
          evs' ≫= mem_taken = [] → evs' ≫= mem_given = [] →
          wlp (sys os (pppoat_free p) ≫= λ _ : answer, mret ()) wa
           (λ _ w0, wlp
             (mret (rc, UdpCtx (node_type_of is_true conf) uc_ainfo sock'))
             w0
             (λ a w3, wlp
                (let '(rc0, val) := a in
                 if bool_decide (rc0 = 0)
                 then mret (rc0, (λ p0, CtxRef p0 val) <$> Some p)
                 else mret (rc0, ud)) w3
                (λ '(rc0, ud') w',
                   init_post os is_true conf ud w rc0 ud' w')))) as Hrest.
        { intros wa evs' Htra Hat Hag Hst Hsg Hmt' Hmg'.
          wlp_step. apply wlp_sys_eq. intros aF HaF. do 2 wlp_step.
          cbn beta iota. rewrite bool_decide_eq_false_2 by done. wlp_step.
          unfold init_post.
          exists ([(pppoat_alloc, aA); (ainfo_lookup (Some dhost) dport, aR)]
                  ++ evs ++ evs' ++ [(pppoat_free p, aF)]).
          cbn [w_trace].
          split; [by rewrite Htra, Htr2, Htr1, <- !app_assoc|].
          split; [done|]. intros Hes. split; [done|]. intros _.
          split; [|done]. destruct (Hset Hes) as [_ Hsock].
          unfold balanced. rewrite !bind_app, !bind_cons, !list_bind_nil.
          rewrite Hat, Hag, Hst, Hsg, Hmt', Hmg', Hmt, Hmg, Htaken, Hai,
            Hsock by done.
          unfold mem_taken, mem_given, sock_taken, sock_given, ainfo_given,
            ainfo_taken; cbn. rewrite Hp. rewrite !app_nil_r.
          split; [|done]. apply Permutation_app_comm. }
        destruct uc_ainfo as [r|].
        -- unfold udp_ainfo_put. wlp_step. apply wlp_sys_eq. intros aP HaP.
           wlp_step.
           refine (Hrest _ [(freeaddrinfo r, aP)] _ _ _ _ _ _ _);
             cbn [w_trace]; done.
        -- wlp_step. refine (Hrest _ [] _ _ _ _ _ _ _); cbn [w_trace];
             try done. by rewrite app_nil_r.
    + (* the remote address could not be resolved *)
      rewrite (bool_decide_eq_true_2 (rcR ≠ 0)) by done.
      rewrite (Hfail HrcR) in *. wlp_step. cbn beta iota.
      rewrite (bool_decide_eq_true_2 (rcR ≠ 0)) by done.
      wlp_go; [done|].
      unfold init_post. cbn [w_trace].
      eexists [(pppoat_alloc, aA); (ainfo_lookup (Some dhost) dport, aR);
               (pppoat_free p, _)].
      split; [by rewrite Htr1, <- !app_assoc|]. split; [done|].
      intros _. split; [done|]. intros _. split; [|done].
      unfold balanced. rewrite !bind_cons, !list_bind_nil, Htaken.
      unfold mem_taken, mem_given, sock_taken, sock_given, ainfo_given,
        ainfo_taken; cbn. by rewrite Hp.
  - (* no memory *)
    wlp_go; [done|]. unfold init_post. cbn [w_trace].
    exists [(pppoat_alloc, aA)]. split; [done|]. split; [done|].
    intros _. split; [done|]. intros _. split; [|done].
    unfold balanced. rewrite !bind_cons, !list_bind_nil.
    unfold mem_taken, mem_given, sock_taken, sock_given, ainfo_given,
      ainfo_taken; cbn. by rewrite Hp.
Qed.

Lemma module_udp_init_total conf ud w :
  resolver_sound os →
  wp (module_udp_init os is_true fresh conf ud) w (λ _ _, True).
Proof.
  intros Hrs. unfold module_udp_init, udp_ainfo_get, udp_ainfo_put.
  destruct (endpoints_of (node_type_of is_true conf))
    as [[sport dport] dhost].
  wp_go; try done.
  all: try (eapply wp_mono; [by apply udp_sock_new_total|];
            intros [??] ? _; wp_go; try done).
Qed.

(** C5: init takes the master role exactly when the "server" option is
    present and true, the slave role when it is absent or not true.  The
    master binds port 0xc001 and sends to 192.168.4.10, port 0xc001; the
    slave binds port 0xc001 and sends to 192.168.4.1, port 0xc001.  A
    successful init has resolved the remote host and port of the role,
    has bound the socket to the wildcard address of the local port, and
    hands out a context with the role, the remote address and the
    socket. *)
Theorem init_role_and_endpoints conf ud w :
  let type := node_type_of is_true conf in
  (type = PPPOAT_NODE_MASTER ↔
     ∃ o, conf !! "server" = Some o ∧ is_true o = true) ∧
  (type = PPPOAT_NODE_SLAVE ↔
     conf !! "server" = None ∨
     ∃ o, conf !! "server" = Some o ∧ is_true o = false) ∧
  endpoints_of PPPOAT_NODE_MASTER
    = (0xc001%N, 0xc001%N, "192.168.4.10"%string) ∧
  endpoints_of PPPOAT_NODE_SLAVE
    = (0xc001%N, 0xc001%N, "192.168.4.1"%string) ∧
  wlp (module_udp_init os is_true fresh conf ud) w (λ '(rc, ud') w',
    rc = 0 →
    ∃ evs, w_trace w' = w_trace w ++ evs ∧ init_success type evs ud').
Proof.
  intros type.
  split; [|split; [|split; [done|split; [done|]]]].
  - subst type. unfold node_type_of, pppoat_conf_get.
    destruct (conf !! "server") as [o|]; [destruct (is_true o) eqn:Ho|].
    + split; [eauto|done].
    + split; [done|]. intros (o' & [= <-] & ?). congruence.
    + split; [done|]. by intros (? & ? & _).
  - subst type. unfold node_type_of, pppoat_conf_get.
    destruct (conf !! "server") as [o|]; [destruct (is_true o) eqn:Ho|].
    + split; [done|]. intros [?|(o' & [= <-] & ?)]; congruence.
    + split; [eauto|done].
    + split; [eauto|done].
  - eapply wlp_mono; [apply module_udp_init_wlp|].
    intros [rc ud'] w' (evs & Htr & Hok & _) Hrc. exists evs. auto.
Qed.

(** C6: in an environment where a successful lookup yields a list and a
    failed [socket] or [bind] sets [errno], init returns; when creating
    or binding the socket failed it returns an error, and whenever it
    returns an error every resource it took has been given back once
    (the remote and the local address list released, the socket closed if
    one was created, the context freed) and [*userdata] is as it was. *)
Theorem init_failure_releases_everything conf ud w :
  resolver_sound os → errno_set os →
  ∃ rc ud' evs e,
    module_udp_init os is_true fresh conf ud w
    = Some ((rc, ud'), World (w_trace w ++ evs) e) ∧
    (Exists socket_failed evs → rc ≠ 0) ∧
    (rc ≠ 0 → balanced evs ∧ ud' = ud).
Proof.
  intros Hrs Hes.
  destruct (module_udp_init_total conf ud w Hrs)
    as ([rc ud'] & [tr e] & Hinit & _).
  pose proof (module_udp_init_wlp conf ud w _ _ Hinit)
    as (evs & Htr & _ & Hfail).
  cbn [w_trace] in Htr. subst tr.
  exists rc, ud', evs, e. split; [done|]. by apply Hfail.
Qed.

End Init.

(** ** The forwarding loop *)

Section Run.

Variable os : oracle.

Lemma run_loop_nonzero fuel rd wr ctx sock buf rc0 w rc w' :
  module_udp_run_loop os fuel rd wr ctx sock buf rc0 w = Some (rc, w') → rc ≠ 0.
Proof.
  revert buf rc0 w. induction fuel as [|fuel IH]; intros buf rc0 w; simpl.
  - destruct (rc0 =? 0) eqn:E; simpl; [done|]. intros [= <- <-]. lia.
  - destruct (rc0 =? 0) eqn:E; simpl; [|intros [= <- <-]; lia].
    intros H. apply bind_Some in H as ([rc1 buf1] & w1 & _ & H). eauto.
Qed.

(** C7: whatever [module_udp_run] returns, it is not 0. *)
Theorem run_never_returns_zero fuel rd wr ctrl ud w rc w' :
  module_udp_run os fuel rd wr ctrl ud w = Some (rc, w') → rc ≠ 0.
Proof.
  unfold module_udp_run. intros H.
  apply bind_Some in H as (a & w1 & _ & H).
  apply bind_Some in H as (rc0 & w2 & _ & H).
  eapply run_loop_nonzero, H.
Qed.

Lemma run_loop_S fuel rd wr ctx sock buf rc :
  module_udp_run_loop os (S fuel) rd wr ctx sock buf rc
  = if negb (rc =? 0) then mret rc
    else '(rc, buf) ← module_udp_run_body os fuel rd wr ctx sock buf;
         module_udp_run_loop os fuel rd wr ctx sock buf rc.
Proof. reflexivity. Qed.

Lemma run_loop_exit fuel rd wr ctx sock buf rc w :
  rc ≠ 0 → module_udp_run_loop os fuel rd wr ctx sock buf rc w = Some (rc, w).
Proof.
  intros H. destruct fuel; simpl; destruct (Z.eqb_spec rc 0); done.
Qed.

(** C3: in a round of the loop where the link is reported readable and
    [read] returns 0, the loop ends with [-EPIPE]; the read is the last
    call: no receive on the socket, no further round. *)
Theorem run_zero_read_is_broken_pipe fuel rd wr ctx sock buf w :
  let a1 := os (w_trace w) (run_select rd sock) in
  let h1 := w_trace w ++ [(run_select rd sock, a1)] in
  let a2 := os h1 (run_read rd) in
  FD_ISSET rd (a_rfds a1) = true →
  a_ret a2 = 0 →
  module_udp_run_loop os (S fuel) rd wr ctx sock buf 0 w
  = Some (- EPIPE, World (h1 ++ [(run_read rd, a2)]) (a_errno a2)).
Proof.
  intros a1 h1 a2 Hset Hlen. rewrite run_loop_S. cbn [Z.eqb negb].
  unfold module_udp_run_body, module_udp_run_link, module_udp_run_sock.
  erewrite bind_eq; last first.
  { rewrite (bind_eq _ _ _ _ _ (sys_eq _ _ _)). fold (run_select rd sock). fold a1.
    cbn [w_trace]. fold h1.
    erewrite bind_eq; last first.
    { rewrite Hset. rewrite (bind_eq _ _ _ _ _ (sys_eq _ _ _)). cbn [w_trace].
      fold (run_read rd). fold a2. rewrite Hlen.
      unfold errno at 1. unfold mbind at 1, M_bind at 1. cbn [w_errno].
      cbn [Z.eqb Z.ltb Z.compare andb]. reflexivity. }
    cbn beta iota. change (P_ERR (- EPIPE) =? 0) with false.
      cbn [andb]. reflexivity. }
  cbn beta iota. apply run_loop_exit. done.
Qed.

Lemma udp_buf_send_body_spec ctx ainfo buf len rc w :
  ∃ buf' len' rc' evs e,
    udp_buf_send_body os ctx ainfo buf len rc w
    = Some ((buf', len', rc'), World (w_trace w ++ evs) e) ∧
    Forall (λ ev, is_send_call ctx ainfo ev.1) evs ∧
    (sendto_bounded os → 0 < len →
     0 ≤ len' ≤ len ∧
     sent_total evs = len - len' ∧
     buf' = drop (Z.to_nat (len - len')) buf ∧
     sent_bytes evs = take (Z.to_nat (len - len')) buf).
Proof.
  unfold udp_buf_send_body.
  rewrite (bind_eq _ _ _ _ _ (sys_eq _ _ _)).
  set (c := sendto _ _ _ _ _ _). set (a := os (w_trace w) c).
  assert (Hc : is_send_call ctx ainfo c) by done.
  unfold errno at 1. unfold mbind at 1, M_bind at 1. cbn [w_errno w_trace].
  destruct (Z.ltb_spec (a_ret a) 0) as [Hneg|Hpos]; cbn [andb].
  - (* the call failed *)
    destruct (Z.eqb_spec (a_errno a) EINTR) as [Hintr|Hintr].
    + exists buf, len, rc, [(c, a)], (a_errno a). split; [done|].
      split; [by repeat constructor|]. intros _ Hlen.
      replace (len - len) with 0 by lia.
      unfold sent_bytes, sent_total, sent_len, sent_chunk; simpl.
      rewrite Z.max_l by lia. rewrite (Z2Nat.nonpos (a_ret a)) by lia. simpl.
      repeat split; (lia || done).
    + destruct (udp_error_is_recoverable (- a_errno a)) eqn:Hrec; cbn [negb].
      * rewrite (bind_eq _ _ _ _ _
                   (bind_eq _ _ _ _ _ (sys_eq _ _ _))).
        cbn [w_trace].
        set (c2 := pppoat_util_select _ _ _).
        set (a2 := os _ c2).
        destruct (Z.ltb_spec 0 (a_ret a)) as [?|_]; [lia|].
        exists buf, len, (a_ret a2), [(c, a); (c2, a2)], (a_errno a2).
        split; [by rewrite <- app_assoc|].
        split; [by repeat constructor|]. intros _ Hlen.
        replace (len - len) with 0 by lia.
        unfold sent_bytes, sent_total, sent_len, sent_chunk; simpl.
        rewrite Z.max_l by lia. rewrite (Z2Nat.nonpos (a_ret a)) by lia. simpl.
        repeat split; (lia || done).
      * unfold mret at 1, M_ret at 1. unfold mbind at 1, M_bind at 1.
        destruct (Z.ltb_spec 0 (a_ret a)) as [?|_]; [lia|].
        exists buf, len, (P_ERR (- a_errno a)), [(c, a)], (a_errno a).
        split; [done|].
        split; [by repeat constructor|]. intros _ Hlen.
        replace (len - len) with 0 by lia.
        unfold sent_bytes, sent_total, sent_len, sent_chunk; simpl.
        rewrite Z.max_l by lia. rewrite (Z2Nat.nonpos (a_ret a)) by lia. simpl.
        repeat split; (lia || done).
  - (* the call took [a_ret a] bytes *)
    unfold mret at 1, M_ret at 1. unfold mbind at 1, M_bind at 1.
    destruct (Z.ltb_spec 0 (a_ret a)) as [Hgt|Hzero].
    + exists (drop (Z.to_nat (a_ret a)) buf), (len - a_ret a), rc,
             [(c, a)], (a_errno a).
      split; [done|]. split; [by repeat constructor|]. intros Hb Hlen.
      assert (a_ret a ≤ len) by (apply Hb; lia).
      replace (len - (len - a_ret a)) with (a_ret a) by lia.
      unfold sent_bytes, sent_total, sent_len, sent_chunk; simpl.
      rewrite Z.max_r by lia. rewrite app_nil_r, take_take.
      rewrite Nat.min_l by lia.
      repeat split; (lia || done).
    + exists buf, len, rc, [(c, a)], (a_errno a).
      split; [done|]. split; [by repeat constructor|]. intros _ Hlen.
      replace (len - len) with 0 by lia.
      assert (a_ret a = 0) as Hz by lia.
      unfold sent_bytes, sent_total, sent_len, sent_chunk; simpl.
      rewrite Hz. simpl. repeat split; (lia || done).
Qed.

Lemma udp_buf_send_loop_spec fuel ctx ainfo buf len rc w r w' :
  udp_buf_send_loop os fuel ctx ainfo buf len rc w = Some (r, w') →
  ∃ evs,
    w_trace w' = w_trace w ++ evs ∧
    Forall (λ ev, is_send_call ctx ainfo ev.1) evs ∧
    (sendto_bounded os → 0 < len → r = 0 →
     sent_total evs = len ∧ sent_bytes evs = take (Z.to_nat len) buf).
Proof.
  revert buf len rc w. induction fuel as [|fuel IH]; intros buf len rc w; [done|].
  cbn [udp_buf_send_loop].
  destruct (udp_buf_send_body_spec ctx ainfo buf len rc w)
    as (buf1 & len1 & rc1 & evs1 & e1 & Hbody & Hcalls & Hsum).
  rewrite (bind_eq _ _ _ _ _ Hbody).
  destruct (Z.eqb_spec rc1 0) as [Hrc|Hrc]; cbn [andb].
  - destruct (Z.ltb_spec 0 len1) as [Hmore|Hdone].
    + intros H. apply IH in H as (evs2 & Htr & Hcalls2 & Hsum2).
      exists (evs1 ++ evs2). cbn [w_trace] in Htr.
      split; [by rewrite Htr, app_assoc|].
      split; [by apply Forall_app|].
      intros Hb Hlen Hr.
      destruct (Hsum Hb Hlen) as (Hrange & Ht1 & Hbuf1 & Hb1).
      destruct (Hsum2 Hb Hmore Hr) as (Ht2 & Hb2).
      rewrite sent_total_app, sent_bytes_app, Ht1, Ht2, Hb1, Hb2, Hbuf1.
      split; [lia|].
      rewrite take_take_drop. f_equal. lia.
    + intros [= <- <-]. exists evs1. split; [done|]. split; [done|].
      intros Hb Hlen _.
      destruct (Hsum Hb Hlen) as (Hrange & Ht1 & Hbuf1 & Hb1).
      assert (len1 = 0) as -> by lia.
      rewrite Ht1, Hb1. split; [lia|]. f_equal. lia.
  - intros [= <- <-]. exists evs1. split; [done|]. split; [done|].
    intros _ _ ?. done.
Qed.

(** C1: for a buffer of 1 to 65507 bytes, whatever the socket answers
    (it never takes more than it is given), [udp_buf_send] returns 0 only
    when the bytes taken by its [sendto] calls add up to [len]; taken in
    the order of the calls they are the first [len] bytes of the buffer,
    and every call went to the socket and remote address of the
    context. *)
Theorem udp_buf_send_sends_all fuel ctx buf len w w' :
  sendto_bounded os →
  1 ≤ len ≤ 65507 →
  udp_buf_send os fuel ctx buf len w = Some (0, w') →
  ∃ ainfo evs,
    uc_ainfo ctx = Some ainfo ∧
    w_trace w' = w_trace w ++ evs ∧
    Forall (λ ev, is_send_call ctx ainfo ev.1) evs ∧
    sent_total evs = len ∧
    sent_bytes evs = take (Z.to_nat len) buf.
Proof.
  intros Hb Hlen. unfold udp_buf_send.
  destruct (uc_ainfo ctx) as [ainfo|]; [|done].
  intros H. apply udp_buf_send_loop_spec in H as (evs & Htr & Hcalls & Hsum).
  exists ainfo, evs. destruct Hsum as [Ht Hbytes]; [done|lia|done|]. done.
Qed.

Lemma udp_buf_send_calls fuel ctx buf len w r w' :
  udp_buf_send os fuel ctx buf len w = Some (r, w') →
  ∃ evs, w_trace w' = w_trace w ++ evs ∧
         Forall (λ ev, is_recv ev.1 = false ∧ is_link_write ev.1 = false) evs.
Proof.
  unfold udp_buf_send. destruct (uc_ainfo ctx) as [ainfo|]; [|done].
  intros H. apply udp_buf_send_loop_spec in H as (evs & Htr & Hcalls & _).
  exists evs. split; [done|]. eapply Forall_impl; [exact Hcalls|].
  intros [c a]; simpl. by destruct c.
Qed.

Lemma run_link_calls fuel rd ctx rfds rc buf w rc' buf' w' :
  module_udp_run_link os fuel rd ctx rfds rc buf w = Some ((rc', buf'), w') →
  ∃ evs, w_trace w' = w_trace w ++ evs ∧
         Forall (λ ev, is_recv ev.1 = false ∧ is_link_write ev.1 = false) evs.
Proof.
  unfold module_udp_run_link. destruct (FD_ISSET rd rfds).
  - rewrite (bind_eq _ _ _ _ _ (sys_eq _ _ _)).
    unfold errno at 1. unfold mbind at 1, M_bind at 1. cbn [w_errno w_trace].
    destruct (0 <? _).
    + intros H. apply bind_Some in H as (r & w1 & H & [= <- <- <-]).
      apply udp_buf_send_calls in H as (evs & Htr & Hcalls).
      cbn [w_trace] in Htr. eexists (_ :: evs).
      split; [by rewrite Htr, <- app_assoc|]. by constructor.
    + intros [= <- <- <-]. eexists [_]. split; [done|]. by repeat constructor.
  - intros [= <- <- <-]. exists []. by rewrite app_nil_r.
Qed.

(** C9: an empty datagram is ignored.  In a round of the loop that comes
    to the receive on the socket (the link branch left [rc] at 0 and the
    wait reported the socket readable), a [recv] that returns 0 is the last
    call of the round: nothing is written to the link in the whole round,
    [rc] stays 0, and the loop goes on with the next round. *)
Theorem run_empty_datagram_is_ignored fuel rd wr ctx sock buf w buf1 w1 :
  let a1 := os (w_trace w) (run_select rd sock) in
  let w0 := World (w_trace w ++ [(run_select rd sock, a1)]) (a_errno a1) in
  let rc0 := if 0 <? a_ret a1 then 0 else a_ret a1 in
  let a := os (w_trace w1) (run_recv sock) in
  let w' := World (w_trace w1 ++ [(run_recv sock, a)]) (a_errno a) in
  module_udp_run_link os fuel rd ctx (a_rfds a1) rc0 buf w0
  = Some ((0, buf1), w1) →
  FD_ISSET sock (a_rfds a1) = true →
  a_ret a = 0 →
  module_udp_run_sock os wr sock (a_rfds a1) 0 buf1 w1
  = Some ((0, store (a_data a) buf1), w') ∧
  module_udp_run_body os fuel rd wr ctx sock buf w
  = Some ((0, store (a_data a) buf1), w') ∧
  (∃ evs, w_trace w' = w_trace w ++ evs ∧
          last evs = Some (run_recv sock, a) ∧
          Forall (λ ev, is_link_write ev.1 = false) evs) ∧
  module_udp_run_loop os (S fuel) rd wr ctx sock buf 0 w
  = module_udp_run_loop os fuel rd wr ctx sock (store (a_data a) buf1) 0 w'.
Proof.
  intros a1 w0 rc0 a w' Hlink Hset Hzero.
  assert (module_udp_run_sock os wr sock (a_rfds a1) 0 buf1 w1
          = Some ((0, store (a_data a) buf1), w')) as Hsock.
  { unfold module_udp_run_sock. rewrite Hset. cbn [Z.eqb andb].
    rewrite (bind_eq _ _ _ _ _ (sys_eq _ _ _)). fold (run_recv sock). fold a.
    unfold errno at 1. unfold mbind at 1, M_bind at 1. cbn [w_errno].
    rewrite Hzero. cbn [Z.ltb Z.compare andb]. reflexivity. }
  assert (module_udp_run_body os fuel rd wr ctx sock buf w
          = Some ((0, store (a_data a) buf1), w')) as Hbody.
  { change (module_udp_run_body os fuel rd wr ctx sock buf w)
      with (('(rc, buf) ← module_udp_run_link os fuel rd ctx (a_rfds a1)
                           rc0 buf;
             module_udp_run_sock os wr sock (a_rfds a1) rc buf) w0).
    by rewrite (bind_eq _ _ _ _ _ Hlink). }
  split; [done|]. split; [done|]. split.
  - apply run_link_calls in Hlink as (evs & Htr & Hcalls).
    unfold w0 in Htr. cbn [w_trace] in Htr.
    exists ((run_select rd sock, a1) :: evs ++ [(run_recv sock, a)]).
    unfold w'. cbn [w_trace]. split; [by rewrite Htr, <- !app_assoc|].
    split.
    + by rewrite app_comm_cons, last_snoc.
    + constructor; [done|]. apply Forall_app. split.
      * eapply Forall_impl; [exact Hcalls|]. by intros ? [??].
      * by repeat constructor.
  - rewrite run_loop_S. cbn [Z.eqb negb].
    by rewrite (bind_eq _ _ _ _ _ Hbody).
Qed.

(** X11: when [sendto] is interrupted (EINTR), [udp_buf_send] offers
    the same bytes again in its next round, without a wait in between. *)
Theorem send_interrupted_is_retried fuel ctx ainfo buf len w :
  let c := send_call ctx ainfo buf len in
  let a := os (w_trace w) c in
  a_ret a < 0 → a_errno a = EINTR → 0 < len →
  udp_buf_send_loop os (S fuel) ctx ainfo buf len 0 w
  = udp_buf_send_loop os fuel ctx ainfo buf len 0
      (World (w_trace w ++ [(c, a)]) (a_errno a)).
Proof.
  intros c a Hret Herr Hlen. cbn [udp_buf_send_loop].
  erewrite bind_eq; last first.
  { unfold udp_buf_send_body. rewrite (bind_eq _ _ _ _ _ (sys_eq _ _ _)).
    fold (send_call ctx ainfo buf len). fold c a.
    unfold errno at 1. unfold mbind at 1, M_bind at 1. cbn [w_errno].
    rewrite (proj2 (Z.ltb_lt _ _) Hret), (proj2 (Z.eqb_eq _ _) Herr).
    reflexivity. }
  cbn beta iota. rewrite (proj2 (Z.ltb_lt _ _) Hlen). reflexivity.
Qed.

(** X12: when [sendto] would block, [udp_buf_send] waits for the socket
    to become writable; if the wait returns 0 the same bytes are offered
    again, otherwise what the wait returned is what [udp_buf_send]
    returns. *)
Theorem send_wouldblock_waits fuel ctx ainfo buf len w :
  let c := send_call ctx ainfo buf len in
  let a := os (w_trace w) c in
  let h1 := w_trace w ++ [(c, a)] in
  let a2 := os h1 (send_wait ctx) in
  let w2 := World (h1 ++ [(send_wait ctx, a2)]) (a_errno a2) in
  a_ret a < 0 → a_errno a = EAGAIN ∨ a_errno a = EWOULDBLOCK → 0 < len →
  udp_buf_send_loop os (S fuel) ctx ainfo buf len 0 w
  = if a_ret a2 =? 0
    then udp_buf_send_loop os fuel ctx ainfo buf len 0 w2
    else Some (a_ret a2, w2).
Proof.
  intros c a h1 a2 w2 Hret Herr Hlen. cbn [udp_buf_send_loop].
  assert ((a_errno a =? EINTR) = false) as Hnintr
    by (apply Z.eqb_neq; unfold EINTR, EAGAIN, EWOULDBLOCK in *; lia).
  assert (udp_error_is_recoverable (- a_errno a) = true) as Hrec.
  { unfold udp_error_is_recoverable.
    destruct Herr as [Herr|Herr]; rewrite Herr; reflexivity. }
  erewrite bind_eq; last first.
  { unfold udp_buf_send_body. rewrite (bind_eq _ _ _ _ _ (sys_eq _ _ _)).
    fold (send_call ctx ainfo buf len). fold c a.
    unfold errno at 1. unfold mbind at 1, M_bind at 1. cbn [w_errno].
    rewrite (proj2 (Z.ltb_lt _ _) Hret), Hnintr, Hrec. cbn [andb negb].
    rewrite (bind_eq _ _ _ _ _ (bind_eq _ _ _ _ _ (sys_eq _ _ _))).
    cbn [w_trace]. fold (send_wait ctx). fold h1 a2.
    rewrite (proj2 (Z.ltb_ge _ _)) by lia. reflexivity. }
  cbn beta iota. rewrite (proj2 (Z.ltb_lt _ _) Hlen), andb_true_r.
  fold w2. destruct (Z.eqb_spec (a_ret a2) 0) as [->|]; reflexivity.
Qed.

(** X21: a [recv] on the socket that fails with a transient error
    leaves [rc] at 0; nothing is written to the link. *)
Theorem recv_transient_is_absorbed wr sock rfds buf w :
  let a := os (w_trace w) (run_recv sock) in
  FD_ISSET sock rfds = true →
  a_ret a < 0 → udp_error_is_recoverable (- a_errno a) = true →
  module_udp_run_sock os wr sock rfds 0 buf w
  = Some ((0, store (a_data a) buf),
          World (w_trace w ++ [(run_recv sock, a)]) (a_errno a)).
Proof.
  intros a Hset Hret Hrec. unfold module_udp_run_sock.
  rewrite Hset. cbn [Z.eqb andb].
  rewrite (bind_eq _ _ _ _ _ (sys_eq _ _ _)). fold (run_recv sock). fold a.
  unfold errno at 1. unfold mbind at 1, M_bind at 1. cbn [w_errno].
  rewrite Hrec. rewrite (proj2 (Z.ltb_ge _ _)) by lia.
  by rewrite andb_false_r.
Qed.

(** X17: when the wait fails and leaves the link descriptor out of the
    set, the loop ends with the error of the wait; the wait is the last
    call. *)
Theorem select_error_is_returned_when_link_idle fuel rd wr ctx sock buf w :
  let a := os (w_trace w) (run_select rd sock) in
  a_ret a < 0 → FD_ISSET rd (a_rfds a) = false →
  module_udp_run_loop os (S fuel) rd wr ctx sock buf 0 w
  = Some (a_ret a, World (w_trace w ++ [(run_select rd sock, a)]) (a_errno a)).
Proof.
  intros a Hret Hset. rewrite run_loop_S. cbn [Z.eqb negb].
  erewrite bind_eq; last first.
  { unfold module_udp_run_body.
    rewrite (bind_eq _ _ _ _ _ (sys_eq _ _ _)). fold (run_select rd sock).
    fold a. rewrite (proj2 (Z.ltb_ge _ _)) by lia.
    unfold module_udp_run_link. rewrite Hset.
    unfold mret at 1, M_ret at 1. unfold mbind at 1, M_bind at 1.
    unfold module_udp_run_sock.
    rewrite (proj2 (Z.eqb_neq _ _)) by lia. reflexivity. }
  cbn beta iota. apply run_loop_exit. lia.
Qed.

Lemma uses_only_app fds evs1 evs2 :
  uses_only fds evs1 → uses_only fds evs2 → uses_only fds (evs1 ++ evs2).
Proof. intros. by apply Forall_app. Qed.

Lemma send_call_fds ctx ainfo c fd :
  is_send_call ctx ainfo c → fd ∈ call_fds c → fd = uc_sock ctx.
Proof.
  destruct c as [| | | | | | | |maxfd [rfds|] [wfds|]| | | |]; try done; simpl.
  - intros (-> & ->). unfold FD_SET, FD_ZERO.
    rewrite elem_of_cons, elem_of_app, !elem_of_elements.
    rewrite elem_of_union, elem_of_singleton, !elem_of_empty. tauto.
  - intros (-> & _). by intros ->%list_elem_of_singleton.
Qed.

Lemma udp_buf_send_fds fuel ctx buf len w r w' :
  udp_buf_send os fuel ctx buf len w = Some (r, w') →
  ∃ evs, w_trace w' = w_trace w ++ evs ∧ uses_only [uc_sock ctx] evs.
Proof.
  unfold udp_buf_send. destruct (uc_ainfo ctx) as [ainfo|]; [|done].
  intros H. apply udp_buf_send_loop_spec in H as (evs & Htr & Hcalls & _).
  exists evs. split; [done|]. eapply Forall_impl; [exact Hcalls|].
  intros [c a] Hc fd Hfd. simpl in *.
  rewrite (send_call_fds _ _ _ _ Hc Hfd). fd_solve.
Qed.

Lemma run_body_fds fuel rd wr ctx buf w rc buf' w' :
  module_udp_run_body os fuel rd wr ctx (uc_sock ctx) buf w
  = Some ((rc, buf'), w') →
  ∃ evs, w_trace w' = w_trace w ++ evs ∧
         uses_only [rd; wr; uc_sock ctx] evs.
Proof.
  set (sock := uc_sock ctx). unfold module_udp_run_body.
  rewrite (bind_eq _ _ _ _ _ (sys_eq _ _ _)). fold (run_select rd sock).
  set (a1 := os _ _). intros H.
  assert (uses_only [rd; wr; sock] [(run_select rd sock, a1)]) as Hsel.
  { constructor; [|constructor]. intros fd. simpl.
    unfold pppoat_max, FD_SET, FD_ZERO.
    rewrite app_nil_r, elem_of_cons, elem_of_elements.
    intros [->|Hfd]; [destruct (Z.max_spec rd sock) as [[_ ->]|[_ ->]]|];
      fd_solve. }
  apply bind_Some in H as ([rc1 buf1] & w1 & Hlink & Hsock).
  assert (∃ evs, w_trace w1 = (w_trace w ++ [(run_select rd sock, a1)]) ++ evs
                 ∧ uses_only [rd; wr; sock] evs) as (evs1 & Htr1 & Hu1).
  { revert Hlink. unfold module_udp_run_link.
    destruct (FD_ISSET rd (a_rfds a1)).
    - rewrite (bind_eq _ _ _ _ _ (sys_eq _ _ _)). set (a2 := os _ _).
      unfold errno at 1. unfold mbind at 1, M_bind at 1. cbn [w_errno w_trace].
      assert (∀ a, uses_only [rd; wr; sock] [(read rd BUF_SIZE, a)]) as Hrd.
      { intros a. constructor; [|constructor]. simpl. fd_solve. }
      destruct (0 <? a_ret a2).
      + intros H. apply bind_Some in H as (r & w2 & H & [= <- <- <-]).
        apply udp_buf_send_fds in H as (evs & Htr & Hu).
        cbn [w_trace] in Htr. eexists (_ :: evs).
        split; [by rewrite Htr, <- !app_assoc|].
        apply (uses_only_app _ [_]); [apply Hrd|].
        eapply Forall_impl; [exact Hu|]. intros ? Hev fd Hfd.
        specialize (Hev fd Hfd). fold sock in Hev. fd_solve.
      + intros [= <- <- <-]. eexists [_]. split; [done|]. apply Hrd.
    - intros [= <- <- <-]. exists []. split; [by rewrite app_nil_r|].
      constructor. }
  revert Hsock. unfold module_udp_run_sock.
  destruct ((rc1 =? 0) && FD_ISSET sock (a_rfds a1)).
  - rewrite (bind_eq _ _ _ _ _ (sys_eq _ _ _)). set (a2 := os _ _).
    unfold errno at 1. unfold mbind at 1, M_bind at 1. cbn [w_errno w_trace].
    assert (∀ a, uses_only [rd; wr; sock] [(recv sock BUF_SIZE 0, a)]) as Hrv.
    { intros a. constructor; [|constructor]. simpl. fd_solve. }
    destruct (0 <? a_ret a2).
    + rewrite (bind_eq _ _ _ _ _ (sys_eq _ _ _)). intros [= <- <- <-].
      cbn [w_trace]. eexists (_ :: evs1 ++ [_; _]).
      split; [by rewrite Htr1, <- !app_assoc|].
      apply (uses_only_app _ [_]); [done|]. apply uses_only_app; [done|].
      apply (uses_only_app _ [_] [_]); [apply Hrv|].
      constructor; [|constructor]. simpl. fd_solve.
    + intros [= <- <- <-]. cbn [w_trace]. eexists (_ :: evs1 ++ [_]).
      split; [by rewrite Htr1, <- !app_assoc|].
      apply (uses_only_app _ [_]); [done|]. apply uses_only_app; [done|].
      apply Hrv.
  - intros [= <- <- <-]. eexists (_ :: evs1).
    split; [by rewrite Htr1, <- !app_assoc|].
    by apply (uses_only_app _ [_]).
Qed.

Lemma run_loop_fds fuel rd wr ctx buf rc0 w rc w' :
  module_udp_run_loop os fuel rd wr ctx (uc_sock ctx) buf rc0 w
  = Some (rc, w') →
  ∃ evs, w_trace w' = w_trace w ++ evs ∧
         uses_only [rd; wr; uc_sock ctx] evs.
Proof.
  revert buf rc0 w. induction fuel as [|fuel IH]; intros buf rc0 w.
  - simpl. destruct (rc0 =? 0); [done|]. intros [= <- <-].
    exists []. split; [by rewrite app_nil_r|constructor].
  - rewrite run_loop_S. destruct (rc0 =? 0); cbn [negb].
    + intros H. apply bind_Some in H as ([rc1 buf1] & w1 & Hbody & Hloop).
      apply run_body_fds in Hbody as (evs1 & Htr1 & Hu1).
      apply IH in Hloop as (evs2 & Htr2 & Hu2).
      exists (evs1 ++ evs2). split; [by rewrite Htr2, Htr1, app_assoc|].
      by apply uses_only_app.
    + intros [= <- <-]. exists []. split; [by rewrite app_nil_r|constructor].
Qed.

(** C8: two runs that differ only in [ctrl] give the same result from the
    same world, the same return value and the same history of calls and
    answers; and the calls of a run are given no other descriptor than
    [rd], [wr] and the socket of the context. *)
Theorem run_ignores_ctrl fuel rd wr ctrl1 ctrl2 ud w :
  module_udp_run os fuel rd wr ctrl1 ud w
  = module_udp_run os fuel rd wr ctrl2 ud w ∧
  wlp (module_udp_run os fuel rd wr ctrl1 ud) w (λ _ w',
    ∃ evs, w_trace w' = w_trace w ++ evs ∧
           uses_only [rd; wr; uc_sock (cp_val ud)] evs).
Proof.
  split; [reflexivity|]. intros rc w'. unfold module_udp_run.
  set (sock := uc_sock (cp_val ud)).
  rewrite (bind_eq _ _ _ _ _ (sys_eq _ _ _)). set (a1 := os _ _).
  assert (∀ fd a, fd ∈ [rd; wr; sock] →
    uses_only [rd; wr; sock] [(pppoat_util_fd_nonblock_set fd true, a)]) as Hnb.
  { intros fd a Hfd. constructor; [|constructor]. simpl.
    by intros ? ->%list_elem_of_singleton. }
  case_bool_decide.
  - intros Hrun. apply run_loop_fds in Hrun as (evs & Htr & Hu).
    cbn [w_trace] in Htr. eexists (_ :: evs).
    split; [by rewrite Htr, <- app_assoc|].
    apply (uses_only_app _ [_]); [apply Hnb; fd_solve|done].
  - rewrite (bind_eq _ _ _ _ _ (bind_eq _ _ _ _ _ (sys_eq _ _ _))).
    intros Hrun. apply run_loop_fds in Hrun as (evs & Htr & Hu).
    cbn [w_trace] in Htr. eexists (_ :: _ :: evs).
    split; [by rewrite Htr, <- !app_assoc|].
    apply (uses_only_app _ [_; _]); [|done].
    apply (uses_only_app _ [_] [_]); apply Hnb; fd_solve.
Qed.

(** More fuel does not change a result. *)
Lemma udp_buf_send_loop_fuel n m ctx ainfo buf len rc w r :
  (n ≤ m)%nat →
  udp_buf_send_loop os n ctx ainfo buf len rc w = Some r →
  udp_buf_send_loop os m ctx ainfo buf len rc w = Some r.
Proof.
  revert m buf len rc w. induction n as [|n IH]; intros m buf len rc w Hnm;
    [done|].
  destruct m as [|m]; [lia|]. cbn [udp_buf_send_loop]. intros H.
  apply bind_Some in H as ([[buf1 len1] rc1] & w1 & Hbody & H).
  rewrite (bind_eq _ _ _ _ _ Hbody).
  destruct ((rc1 =? 0) && (0 <? len1)); [|done]. apply IH; [lia|done].
Qed.

Lemma udp_buf_send_fuel n m ctx buf len w r :
  (n ≤ m)%nat →
  udp_buf_send os n ctx buf len w = Some r →
  udp_buf_send os m ctx buf len w = Some r.
Proof.
  unfold udp_buf_send. destruct (uc_ainfo ctx); [|done].
  apply udp_buf_send_loop_fuel.
Qed.

Lemma run_link_fuel n m rd ctx rfds rc buf w r :
  (n ≤ m)%nat →
  module_udp_run_link os n rd ctx rfds rc buf w = Some r →
  module_udp_run_link os m rd ctx rfds rc buf w = Some r.
Proof.
  intros Hnm. unfold module_udp_run_link.
  destruct (FD_ISSET rd rfds); [|done].
  rewrite !(bind_eq _ _ _ _ _ (sys_eq _ _ _)). set (a := os _ _).
  unfold errno. unfold mbind at 1 3, M_bind at 1 3. cbn [w_errno].
  destruct (0 <? a_ret a); [|done]. intros Hs.
  apply bind_Some in Hs as (rc2 & w2 & Hsend & Hret).
  by rewrite (bind_eq _ _ _ _ _ (udp_buf_send_fuel _ _ _ _ _ _ _ Hnm Hsend)).
Qed.

Lemma run_body_fuel n m rd wr ctx sock buf w r :
  (n ≤ m)%nat →
  module_udp_run_body os n rd wr ctx sock buf w = Some r →
  module_udp_run_body os m rd wr ctx sock buf w = Some r.
Proof.
  intros Hnm. unfold module_udp_run_body.
  rewrite !(bind_eq _ _ _ _ _ (sys_eq _ _ _)). intros H.
  apply bind_Some in H as ([rc1 buf1] & w1 & Hlink & H).
  by rewrite (bind_eq _ _ _ _ _ (run_link_fuel _ _ _ _ _ _ _ _ _ Hnm Hlink)).
Qed.

Lemma run_loop_fuel n m rd wr ctx sock buf rc w r :
  (n ≤ m)%nat →
  module_udp_run_loop os n rd wr ctx sock buf rc w = Some r →
  module_udp_run_loop os m rd wr ctx sock buf rc w = Some r.
Proof.
  revert m buf rc w. induction n as [|n IH]; intros m buf rc w Hnm.
  - simpl. destruct (Z.eqb_spec rc 0) as [->|Hrc]; [done|]. cbn [negb].
    intros [= <-]. by apply run_loop_exit.
  - destruct m as [|m]; [lia|]. rewrite !run_loop_S.
    destruct (rc =? 0); [|done]. cbn [negb]. intros H.
    apply bind_Some in H as ([rc1 buf1] & w1 & Hbody & H).
    erewrite bind_eq; [|eapply run_body_fuel; [|exact Hbody]; lia].
    apply IH; [lia|done].
Qed.

Lemma module_udp_run_fuel n m rd wr ctrl ud w r :
  (n ≤ m)%nat →
  module_udp_run os n rd wr ctrl ud w = Some r →
  module_udp_run os m rd wr ctrl ud w = Some r.
Proof.
  intros Hnm. unfold module_udp_run. intros H.
  apply bind_Some in H as (a & w1 & Ha & H). rewrite (bind_eq _ _ _ _ _ Ha).
  apply bind_Some in H as (rc & w2 & Hrc & H). rewrite (bind_eq _ _ _ _ _ Hrc).
  by eapply run_loop_fuel.
Qed.

(** In an environment that only lets the socket wait, [udp_buf_send] returns
    0 when it is given enough fuel. *)
Lemma udp_buf_send_body_progress ctx ainfo buf len w :
  sendto_bounded os → transient_only os → wait_succeeds os → 0 < len →
  ∃ buf' len' w',
    udp_buf_send_body os ctx ainfo buf len 0 w = Some ((buf', len', 0), w') ∧
    0 ≤ len' ≤ len ∧
    (length (w_trace w) < length (w_trace w'))%nat ∧
    (a_ret (os (w_trace w) (send_call ctx ainfo buf len)) = len → len' = 0).
Proof.
  intros Hb Ht Hw Hlen. unfold udp_buf_send_body.
  rewrite (bind_eq _ _ _ _ _ (sys_eq _ _ _)).
  fold (send_call ctx ainfo buf len).
  pose proof (Hb (w_trace w) (uc_sock ctx) (take (Z.to_nat len) buf) len 0
                (ai_addr (ap_val ainfo)) (ai_addrlen (ap_val ainfo))) as Hle.
  pose proof (Ht (w_trace w) (uc_sock ctx) (take (Z.to_nat len) buf) len 0
                (ai_addr (ap_val ainfo)) (ai_addrlen (ap_val ainfo))) as Hrec.
  fold (send_call ctx ainfo buf len) in Hle, Hrec.
  set (a := os (w_trace w) (send_call ctx ainfo buf len)) in *.
  unfold errno at 1. unfold mbind at 1, M_bind at 1. cbn [w_errno w_trace].
  destruct (Z.ltb_spec (a_ret a) 0) as [Hneg|Hpos]; cbn [andb].
  - rewrite (Hrec Hneg). cbn [negb].
    destruct (a_errno a =? EINTR).
    + eexists buf, len, _. split; [reflexivity|]. cbn [w_trace].
      rewrite length_app. simpl. repeat split; lia.
    + rewrite (bind_eq _ _ _ _ _ (bind_eq _ _ _ _ _ (sys_eq _ _ _))).
      cbn [w_trace]. rewrite Hw.
      rewrite (proj2 (Z.ltb_ge 0 (a_ret a))) by lia.
      eexists buf, len, _. split; [reflexivity|]. cbn [w_trace].
      rewrite !length_app. simpl. repeat split; lia.
  - unfold mret at 1, M_ret at 1. unfold mbind at 1, M_bind at 1.
    destruct (Z.ltb_spec 0 (a_ret a)) as [Hgt|Hzero].
    + eexists _, _, _. split; [reflexivity|]. cbn [w_trace].
      rewrite length_app. simpl. repeat split; lia.
    + eexists buf, len, _. split; [reflexivity|]. cbn [w_trace].
      rewrite length_app. simpl. repeat split; lia.
Qed.

Lemma udp_buf_send_loop_returns n fuel ctx ainfo buf len w :
  sendto_bounded os → transient_only os → wait_succeeds os →
  takes_all_after os n →
  0 < len → (n ≤ length (w_trace w) + fuel)%nat →
  ∃ w', udp_buf_send_loop os (S fuel) ctx ainfo buf len 0 w = Some (0, w').
Proof.
  intros Hb Ht Hw Hall. revert buf len w.
  induction fuel as [|fuel IH]; intros buf len w Hlen Hn.
  - destruct (udp_buf_send_body_progress ctx ainfo buf len w Hb Ht Hw Hlen)
      as (buf' & len' & w' & Hbody & Hrange & _ & Hdone).
    cbn [udp_buf_send_loop]. rewrite (bind_eq _ _ _ _ _ Hbody).
    rewrite Hdone by (apply Hall; lia). eauto.
  - destruct (udp_buf_send_body_progress ctx ainfo buf len w Hb Ht Hw Hlen)
      as (buf' & len' & w' & Hbody & Hrange & Hgrow & _).
    cbn [udp_buf_send_loop]. rewrite (bind_eq _ _ _ _ _ Hbody).
    cbn [Z.eqb andb].
    destruct (Z.ltb_spec 0 len') as [Hmore|Hnone]; [|eauto].
    apply IH; [done|lia].
Qed.

(** X13: [udp_buf_send] returns 0 on a socket under load: if failures
    of [sendto] are transient, the wait for a writable socket returns 0 and
    from the [n]-th call on the socket takes what it is given, then
    [n + 1] rounds are enough. *)
Theorem udp_buf_send_returns n fuel ctx ainfo buf len w :
  sendto_bounded os → transient_only os → wait_succeeds os →
  takes_all_after os n →
  uc_ainfo ctx = Some ainfo →
  0 < len → (n ≤ length (w_trace w) + fuel)%nat →
  ∃ w', udp_buf_send os (S fuel) ctx buf len w = Some (0, w').
Proof.
  intros Hb Ht Hw Hall Hctx. unfold udp_buf_send. rewrite Hctx.
  by apply udp_buf_send_loop_returns.
Qed.

End Run.

(** ** More of the forwarding loop *)

Section Forwarding.
Variable os : oracle.

Lemma not_recoverable_not_EINTR e :
  udp_error_is_recoverable (- e) = false → (e =? EINTR) = false.
Proof.
  unfold udp_error_is_recoverable. intros H.
  apply orb_false_elim in H as [H _]. apply orb_false_elim in H as [_ H].
  apply Z.eqb_neq in H. apply Z.eqb_neq. lia.
Qed.

Lemma run_body_eq fuel rd wr ctx sock buf w :
  let a1 := os (w_trace w) (run_select rd sock) in
  module_udp_run_body os fuel rd wr ctx sock buf w
  = ('(rc, buf) ← module_udp_run_link os fuel rd ctx (a_rfds a1)
                    (if 0 <? a_ret a1 then 0 else a_ret a1) buf;
     module_udp_run_sock os wr sock (a_rfds a1) rc buf)
      (World (w_trace w ++ [(run_select rd sock, a1)]) (a_errno a1)).
Proof. reflexivity. Qed.

Lemma run_loop_round fuel rd wr ctx sock buf w rc buf' w' :
  module_udp_run_body os fuel rd wr ctx sock buf w = Some ((rc, buf'), w') →
  module_udp_run_loop os (S fuel) rd wr ctx sock buf 0 w
  = module_udp_run_loop os fuel rd wr ctx sock buf' rc w'.
Proof.
  intros H. rewrite run_loop_S. cbn [Z.eqb negb].
  by rewrite (bind_eq _ _ _ _ _ H).
Qed.

Lemma run_link_idle fuel rd ctx rfds rc buf w :
  FD_ISSET rd rfds = false →
  module_udp_run_link os fuel rd ctx rfds rc buf w = Some ((rc, buf), w).
Proof. intros H. unfold module_udp_run_link. by rewrite H. Qed.

Lemma run_sock_idle wr sock rfds rc buf w :
  rc ≠ 0 ∨ FD_ISSET sock rfds = false →
  module_udp_run_sock os wr sock rfds rc buf w = Some ((rc, buf), w).
Proof.
  intros H. unfold module_udp_run_sock.
  destruct H as [H|H].
  - by rewrite (proj2 (Z.eqb_neq _ _) H).
  - by rewrite H, andb_false_r.
Qed.

(** X10: when [sendto] fails with an error that is not transient,
    [udp_buf_send] returns minus that error at once: the failed datagram is
    its last call, there is no wait and no second attempt. *)
Theorem send_fatal_error_is_returned fuel ctx ainfo buf len w :
  let c := send_call ctx ainfo buf len in
  let a := os (w_trace w) c in
  a_ret a < 0 → udp_error_is_recoverable (- a_errno a) = false →
  a_errno a ≠ 0 →
  udp_buf_send_loop os (S fuel) ctx ainfo buf len 0 w
  = Some (- a_errno a, World (w_trace w ++ [(c, a)]) (a_errno a)).
Proof.
  intros c a Hret Hrec Herr. cbn [udp_buf_send_loop].
  erewrite bind_eq; last first.
  { unfold udp_buf_send_body. rewrite (bind_eq _ _ _ _ _ (sys_eq _ _ _)).
    fold (send_call ctx ainfo buf len). fold c a.
    unfold errno at 1. unfold mbind at 1, M_bind at 1. cbn [w_errno].
    rewrite (proj2 (Z.ltb_lt _ _) Hret), (not_recoverable_not_EINTR _ Hrec),
      Hrec.
    cbn [andb negb].
    unfold mret at 1, M_ret at 1. unfold mbind at 1, M_bind at 1.
    rewrite (proj2 (Z.ltb_ge _ _)) by lia. reflexivity. }
  cbn beta iota. unfold P_ERR.
  rewrite (proj2 (Z.eqb_neq _ _)) by lia. reflexivity.
Qed.

Lemma udp_buf_send_loop_prefix fuel ctx ainfo buf len rc w r w' :
  sendto_bounded os → 0 < len →
  udp_buf_send_loop os fuel ctx ainfo buf len rc w = Some (r, w') →
  ∃ evs,
    w_trace w' = w_trace w ++ evs ∧
    0 ≤ sent_total evs ≤ len ∧
    sent_bytes evs = take (Z.to_nat (sent_total evs)) buf.
Proof.
  intros Hb. revert buf len rc w.
  induction fuel as [|fuel IH]; intros buf len rc w Hlen; [done|].
  cbn [udp_buf_send_loop].
  destruct (udp_buf_send_body_spec os ctx ainfo buf len rc w)
    as (buf1 & len1 & rc1 & evs1 & e1 & Hbody & _ & Hsum).
  rewrite (bind_eq _ _ _ _ _ Hbody).
  destruct (Hsum Hb Hlen) as (Hrange & Ht1 & Hbuf1 & Hb1).
  destruct ((rc1 =? 0) && (0 <? len1)) eqn:Hgo.
  - apply andb_prop in Hgo as [_ Hmore%Z.ltb_lt].
    intros H. apply IH in H as (evs2 & Htr & Hrange2 & Hb2); [|done].
    exists (evs1 ++ evs2). cbn [w_trace] in Htr.
    split; [by rewrite Htr, app_assoc|].
    rewrite sent_total_app, sent_bytes_app, Ht1, Hb1, Hb2, Hbuf1.
    split; [lia|].
    rewrite take_take_drop. f_equal. lia.
  - intros [= <- <-]. exists evs1. split; [done|].
    rewrite Ht1, Hb1. split; [lia|done].
Qed.

(** X14: whatever [udp_buf_send] returns, also an error, the bytes that
    the socket took are, in the order of the calls, an initial piece of the
    buffer and no more than [len]: no byte is sent twice, none is left
    out in between. *)
Theorem udp_buf_send_sends_prefix fuel ctx buf len w r w' :
  sendto_bounded os → 0 < len →
  udp_buf_send os fuel ctx buf len w = Some (r, w') →
  ∃ evs,
    w_trace w' = w_trace w ++ evs ∧
    0 ≤ sent_total evs ≤ len ∧
    sent_bytes evs = take (Z.to_nat (sent_total evs)) buf.
Proof.
  intros Hb Hlen. unfold udp_buf_send.
  destruct (uc_ainfo ctx) as [ainfo|]; [|done].
  by apply udp_buf_send_loop_prefix.
Qed.

Lemma take_store data buf n :
  Z.of_nat (length data) = n → take (Z.to_nat n) (store data buf) = data.
Proof.
  intros <-. rewrite Nat2Z.id. unfold store. by rewrite take_app_length.
Qed.

(** X20: from the link to the socket.  When [read] stored [len > 0]
    bytes and [udp_buf_send] returned 0, the calls after the read all went
    to the socket and remote address of the context, and the bytes that
    the socket took are, in order, the bytes that were read. *)
Theorem run_link_forwards_what_it_read fuel rd ctx rfds rc buf w buf' w' :
  let a := os (w_trace w) (run_read rd) in
  sendto_bounded os →
  FD_ISSET rd rfds = true →
  0 < a_ret a → Z.of_nat (length (a_data a)) = a_ret a →
  module_udp_run_link os fuel rd ctx rfds rc buf w = Some ((0, buf'), w') →
  ∃ ainfo evs,
    uc_ainfo ctx = Some ainfo ∧
    w_trace w' = w_trace w ++ (run_read rd, a) :: evs ∧
    Forall (λ ev, is_send_call ctx ainfo ev.1) evs ∧
    sent_bytes evs = a_data a.
Proof.
  intros a Hb Hset Hpos Hlen. unfold module_udp_run_link. rewrite Hset.
  rewrite (bind_eq _ _ _ _ _ (sys_eq _ _ _)). fold (run_read rd). fold a.
  unfold errno at 1. unfold mbind at 1, M_bind at 1. cbn [w_errno w_trace].
  rewrite (proj2 (Z.ltb_lt _ _) Hpos).
  intros H. apply bind_Some in H as (r & w1 & H & [= -> <- <-]).
  revert H. unfold udp_buf_send.
  destruct (uc_ainfo ctx) as [ainfo|]; [|done].
  intros H. apply udp_buf_send_loop_spec in H as (evs & Htr & Hcalls & Hsum).
  cbn [w_trace] in Htr. exists ainfo, evs. split; [done|].
  split; [by rewrite Htr, <- app_assoc|]. split; [done|].
  destruct (Hsum Hb Hpos eq_refl) as [_ ->]. by apply take_store.
Qed.

(** X18: a [read] from the link that fails with a transient error
    (EAGAIN, EWOULDBLOCK, EINTR) leaves [rc] as it was; nothing is sent. *)
Theorem read_transient_is_absorbed fuel rd ctx rfds rc buf w :
  let a := os (w_trace w) (run_read rd) in
  FD_ISSET rd rfds = true →
  a_ret a < 0 → udp_error_is_recoverable (- a_errno a) = true →
  module_udp_run_link os fuel rd ctx rfds rc buf w
  = Some ((rc, store (a_data a) buf),
          World (w_trace w ++ [(run_read rd, a)]) (a_errno a)).
Proof.
  intros a Hset Hret Hrec. unfold module_udp_run_link. rewrite Hset.
  rewrite (bind_eq _ _ _ _ _ (sys_eq _ _ _)). fold (run_read rd). fold a.
  unfold errno at 1. unfold mbind at 1, M_bind at 1. cbn [w_errno].
  rewrite Hrec, (proj2 (Z.eqb_neq _ _)) by lia.
  rewrite (proj2 (Z.ltb_ge _ _)) by lia.
  by rewrite andb_false_r.
Qed.

(** X19: when the link is reported readable and [read] fails with an
    error that is not transient, the loop ends with minus that error; the
    read is the last call: no receive on the socket, no further round. *)
Theorem run_read_error_ends_run fuel rd wr ctx sock buf w :
  let a1 := os (w_trace w) (run_select rd sock) in
  let h1 := w_trace w ++ [(run_select rd sock, a1)] in
  let a2 := os h1 (run_read rd) in
  FD_ISSET rd (a_rfds a1) = true →
  a_ret a2 < 0 → udp_error_is_recoverable (- a_errno a2) = false →
  a_errno a2 ≠ 0 →
  module_udp_run_loop os (S fuel) rd wr ctx sock buf 0 w
  = Some (- a_errno a2, World (h1 ++ [(run_read rd, a2)]) (a_errno a2)).
Proof.
  intros a1 h1 a2 Hset Hret Hrec Herr.
  erewrite run_loop_round; last first.
  { rewrite run_body_eq. fold a1 h1.
    erewrite bind_eq; last first.
    { unfold module_udp_run_link. rewrite Hset.
      rewrite (bind_eq _ _ _ _ _ (sys_eq _ _ _)). cbn [w_trace].
      fold (run_read rd). fold a2.
      unfold errno at 1. unfold mbind at 1, M_bind at 1. cbn [w_errno].
      rewrite Hrec, (proj2 (Z.ltb_lt _ _) Hret).
      rewrite (proj2 (Z.ltb_ge 0 _)) by lia. cbn [andb negb].
      reflexivity. }
    cbn beta iota. apply run_sock_idle. left. unfold P_ERR. lia. }
  apply run_loop_exit. unfold P_ERR. lia.
Qed.

(** X23: from the socket to the link.  When only the socket is reported
    readable and [recv] stored a datagram of [len > 0] bytes, the round
    writes exactly these bytes to the link descriptor [wr]; the loop goes
    on if the write returned 0 and ends with what it returned otherwise. *)
Theorem run_datagram_is_written_to_link fuel rd wr ctx sock buf w :
  let a1 := os (w_trace w) (run_select rd sock) in
  let h1 := w_trace w ++ [(run_select rd sock, a1)] in
  let a2 := os h1 (run_recv sock) in
  let h2 := h1 ++ [(run_recv sock, a2)] in
  let c3 := pppoat_util_write wr (a_data a2) (a_ret a2) in
  let a3 := os h2 c3 in
  let w3 := World (h2 ++ [(c3, a3)]) (a_errno a3) in
  0 ≤ a_ret a1 →
  FD_ISSET rd (a_rfds a1) = false → FD_ISSET sock (a_rfds a1) = true →
  0 < a_ret a2 → Z.of_nat (length (a_data a2)) = a_ret a2 →
  module_udp_run_loop os (S fuel) rd wr ctx sock buf 0 w
  = if a_ret a3 =? 0
    then module_udp_run_loop os fuel rd wr ctx sock (store (a_data a2) buf) 0 w3
    else Some (a_ret a3, w3).
Proof.
  intros a1 h1 a2 h2 c3 a3 w3 Hsel Hrd Hsock Hpos Hlen.
  erewrite run_loop_round; last first.
  { rewrite run_body_eq. fold a1 h1.
    rewrite (bind_eq _ _ _ _ _ (run_link_idle _ _ _ _ _ _ _ Hrd)).
    cbn beta iota.
    assert ((if 0 <? a_ret a1 then 0 else a_ret a1) = 0) as ->.
    { destruct (Z.ltb_spec 0 (a_ret a1)); lia. }
    unfold module_udp_run_sock. rewrite Hsock. cbn [Z.eqb andb].
    rewrite (bind_eq _ _ _ _ _ (sys_eq _ _ _)). cbn [w_trace].
    fold (run_recv sock). fold a2 h2.
    unfold errno at 1. unfold mbind at 1, M_bind at 1. cbn [w_errno].
    rewrite (proj2 (Z.ltb_lt _ _) Hpos).
    rewrite (take_store _ _ _ Hlen).
    rewrite (bind_eq _ _ _ _ _ (sys_eq _ _ _)). cbn [w_trace].
    fold c3. fold a3. fold w3. reflexivity. }
  destruct (Z.eqb_spec (a_ret a3) 0) as [->|Hne]; [done|].
  by apply run_loop_exit.
Qed.

(** X22: when only the socket is reported readable and [recv] fails
    with an error that is not transient, the loop ends with minus that
    error; the receive is the last call, nothing is written to the link. *)
Theorem run_recv_error_ends_run fuel rd wr ctx sock buf w :
  let a1 := os (w_trace w) (run_select rd sock) in
  let h1 := w_trace w ++ [(run_select rd sock, a1)] in
  let a2 := os h1 (run_recv sock) in
  0 ≤ a_ret a1 →
  FD_ISSET rd (a_rfds a1) = false → FD_ISSET sock (a_rfds a1) = true →
  a_ret a2 < 0 → udp_error_is_recoverable (- a_errno a2) = false →
  a_errno a2 ≠ 0 →
  module_udp_run_loop os (S fuel) rd wr ctx sock buf 0 w
  = Some (- a_errno a2, World (h1 ++ [(run_recv sock, a2)]) (a_errno a2)).
Proof.
  intros a1 h1 a2 Hsel Hrd Hsock Hret Hrec Herr.
  erewrite run_loop_round; last first.
  { rewrite run_body_eq. fold a1 h1.
    rewrite (bind_eq _ _ _ _ _ (run_link_idle _ _ _ _ _ _ _ Hrd)).
    cbn beta iota.
    assert ((if 0 <? a_ret a1 then 0 else a_ret a1) = 0) as ->.
    { destruct (Z.ltb_spec 0 (a_ret a1)); lia. }
    unfold module_udp_run_sock. rewrite Hsock. cbn [Z.eqb andb].
    rewrite (bind_eq _ _ _ _ _ (sys_eq _ _ _)). cbn [w_trace].
    fold (run_recv sock). fold a2.
    unfold errno at 1. unfold mbind at 1, M_bind at 1. cbn [w_errno].
    rewrite Hrec, (proj2 (Z.ltb_lt _ _) Hret).
    rewrite (proj2 (Z.ltb_ge 0 _)) by lia. cbn [andb negb].
    reflexivity. }
  apply run_loop_exit. unfold P_ERR. lia.
Qed.

(** X16: a wait that does not fail and reports neither descriptor
    readable is the only call of its round; the loop goes on with the next
    round, the buffer untouched. *)
Theorem run_idle_round_goes_on fuel rd wr ctx sock buf w :
  let a1 := os (w_trace w) (run_select rd sock) in
  0 ≤ a_ret a1 →
  FD_ISSET rd (a_rfds a1) = false → FD_ISSET sock (a_rfds a1) = false →
  module_udp_run_loop os (S fuel) rd wr ctx sock buf 0 w
  = module_udp_run_loop os fuel rd wr ctx sock buf 0
      (World (w_trace w ++ [(run_select rd sock, a1)]) (a_errno a1)).
Proof.
  intros a1 Hsel Hrd Hsock.
  erewrite run_loop_round; last first.
  { rewrite run_body_eq. fold a1.
    rewrite (bind_eq _ _ _ _ _ (run_link_idle _ _ _ _ _ _ _ Hrd)).
    cbn beta iota. apply run_sock_idle. by right. }
  cbn beta iota. by destruct (Z.ltb_spec 0 (a_ret a1)); [|replace (a_ret a1) with 0 by lia].
Qed.

(** X15: when the link descriptor cannot be made non-blocking,
    [module_udp_run] returns the error after that one call; when the socket
    cannot, after the two.  The loop is not entered. *)
Theorem run_nonblock_failure_is_returned fuel rd wr ctrl ud w :
  let sock := uc_sock (cp_val ud) in
  let c1 := pppoat_util_fd_nonblock_set rd true in
  let a1 := os (w_trace w) c1 in
  let h1 := w_trace w ++ [(c1, a1)] in
  let c2 := pppoat_util_fd_nonblock_set sock true in
  let a2 := os h1 c2 in
  (a_ret a1 ≠ 0 →
   module_udp_run os fuel rd wr ctrl ud w
   = Some (a_ret a1, World h1 (a_errno a1))) ∧
  (a_ret a1 = 0 → a_ret a2 ≠ 0 →
   module_udp_run os fuel rd wr ctrl ud w
   = Some (a_ret a2, World (h1 ++ [(c2, a2)]) (a_errno a2))).
Proof.
  intros sock c1 a1 h1 c2 a2. unfold module_udp_run.
  rewrite (bind_eq _ _ _ _ _ (sys_eq _ _ _)). fold c1 a1 h1.
  split.
  - intros H1. rewrite bool_decide_eq_true_2 by done.
    unfold mret at 1, M_ret at 1. unfold mbind at 1, M_bind at 1.
    by apply run_loop_exit.
  - intros H1 H2. rewrite bool_decide_eq_false_2 by lia.
    rewrite (bind_eq _ _ _ _ _ (bind_eq _ _ _ _ _ (sys_eq _ _ _))).
    cbn [w_trace]. fold sock c2 a2.
    by apply run_loop_exit.
Qed.

Lemma io_calls_hold_no_resources evs :
  Forall (λ ev : event, is_io_call ev.1 = true) evs →
  evs ≫= ainfo_taken = [] ∧ evs ≫= ainfo_given = [] ∧
  evs ≫= sock_taken = [] ∧ evs ≫= sock_given = [] ∧
  evs ≫= mem_taken = [] ∧ evs ≫= mem_given = [].
Proof.
  induction 1 as [|[c a] evs Hc _ IH]; [done|].
  destruct IH as (H1 & H2 & H3 & H4 & H5 & H6).
  change ((c, a) :: evs) with ([(c, a)] ++ evs).
  rewrite !bind_app, H1, H2, H3, H4, H5, H6.
  by destruct c.
Qed.

Lemma udp_buf_send_io fuel ctx buf len w r w' :
  udp_buf_send os fuel ctx buf len w = Some (r, w') →
  ∃ evs, w_trace w' = w_trace w ++ evs ∧
         Forall (λ ev : event, is_io_call ev.1 = true) evs.
Proof.
  unfold udp_buf_send. destruct (uc_ainfo ctx) as [ainfo|]; [|done].
  intros H. apply udp_buf_send_loop_spec in H as (evs & Htr & Hcalls & _).
  exists evs. split; [done|]. eapply Forall_impl; [exact Hcalls|].
  intros [c a]; simpl. by destruct c.
Qed.

Lemma run_body_io fuel rd wr ctx sock buf w rc buf' w' :
  module_udp_run_body os fuel rd wr ctx sock buf w = Some ((rc, buf'), w') →
  ∃ evs, w_trace w' = w_trace w ++ evs ∧
         Forall (λ ev : event, is_io_call ev.1 = true) evs.
Proof.
  rewrite run_body_eq. set (a1 := os _ _). intros H.
  apply bind_Some in H as ([rc1 buf1] & w1 & Hlink & Hsock).
  assert (∃ evs, w_trace w1 = (w_trace w ++ [(run_select rd sock, a1)]) ++ evs
                 ∧ Forall (λ ev : event, is_io_call ev.1 = true) evs)
    as (evs1 & Htr1 & Hu1).
  { revert Hlink. unfold module_udp_run_link.
    destruct (FD_ISSET rd (a_rfds a1)).
    - rewrite (bind_eq _ _ _ _ _ (sys_eq _ _ _)). set (a2 := os _ _).
      unfold errno at 1. unfold mbind at 1, M_bind at 1. cbn [w_errno w_trace].
      destruct (0 <? a_ret a2).
      + intros H. apply bind_Some in H as (r & w2 & H & [= <- <- <-]).
        apply udp_buf_send_io in H as (evs & Htr & Hu).
        cbn [w_trace] in Htr. eexists (_ :: evs).
        split; [by rewrite Htr, <- !app_assoc|]. by constructor.
      + intros [= <- <- <-]. eexists [_]. split; [done|].
        by repeat constructor.
    - intros [= <- <- <-]. exists []. split; [by rewrite app_nil_r|].
      constructor. }
  revert Hsock. unfold module_udp_run_sock.
  destruct ((rc1 =? 0) && FD_ISSET sock (a_rfds a1)).
  - rewrite (bind_eq _ _ _ _ _ (sys_eq _ _ _)). set (a2 := os _ _).
    unfold errno at 1. unfold mbind at 1, M_bind at 1. cbn [w_errno w_trace].
    destruct (0 <? a_ret a2).
    + rewrite (bind_eq _ _ _ _ _ (sys_eq _ _ _)). intros [= <- <- <-].
      cbn [w_trace]. eexists (_ :: evs1 ++ [_; _]).
      split; [by rewrite Htr1, <- !app_assoc|].
      constructor; [done|]. apply Forall_app. split; [done|].
      by repeat constructor.
    + intros [= <- <- <-]. cbn [w_trace]. eexists (_ :: evs1 ++ [_]).
      split; [by rewrite Htr1, <- !app_assoc|].
      constructor; [done|]. apply Forall_app. split; [done|].
      by repeat constructor.
  - intros [= <- <- <-]. eexists (_ :: evs1).
    split; [by rewrite Htr1, <- !app_assoc|]. by constructor.
Qed.

Lemma run_loop_io fuel rd wr ctx sock buf rc0 w rc w' :
  module_udp_run_loop os fuel rd wr ctx sock buf rc0 w = Some (rc, w') →
  ∃ evs, w_trace w' = w_trace w ++ evs ∧
         Forall (λ ev : event, is_io_call ev.1 = true) evs.
Proof.
  revert buf rc0 w. induction fuel as [|fuel IH]; intros buf rc0 w.
  - simpl. destruct (rc0 =? 0); [done|]. intros [= <- <-].
    exists []. split; [by rewrite app_nil_r|constructor].
  - rewrite run_loop_S. destruct (rc0 =? 0); cbn [negb].
    + intros H. apply bind_Some in H as ([rc1 buf1] & w1 & Hbody & Hloop).
      apply run_body_io in Hbody as (evs1 & Htr1 & Hu1).
      apply IH in Hloop as (evs2 & Htr2 & Hu2).
      exists (evs1 ++ evs2). split; [by rewrite Htr2, Htr1, app_assoc|].
      by apply Forall_app.
    + intros [= <- <-]. exists []. split; [by rewrite app_nil_r|constructor].
Qed.

Lemma module_udp_run_io fuel rd wr ctrl ud w rc w' :
  module_udp_run os fuel rd wr ctrl ud w = Some (rc, w') →
  ∃ evs, w_trace w' = w_trace w ++ evs ∧
         Forall (λ ev : event, is_io_call ev.1 = true) evs.
Proof.
  unfold module_udp_run.
  rewrite (bind_eq _ _ _ _ _ (sys_eq _ _ _)). set (a1 := os _ _).
  case_bool_decide.
  - intros Hrun. apply run_loop_io in Hrun as (evs & Htr & Hu).
    cbn [w_trace] in Htr. eexists (_ :: evs).
    split; [by rewrite Htr, <- app_assoc|]. by constructor.
  - rewrite (bind_eq _ _ _ _ _ (bind_eq _ _ _ _ _ (sys_eq _ _ _))).
    intros Hrun. apply run_loop_io in Hrun as (evs & Htr & Hu).
    cbn [w_trace] in Htr. eexists (_ :: _ :: evs).
    split; [by rewrite Htr, <- !app_assoc|]. by repeat constructor.
Qed.

(** X24: [module_udp_run] only waits and moves bytes: it makes
    descriptors non-blocking, waits, reads, sends, receives and writes.  It
    closes no descriptor, frees no memory and releases no address list, so
    the context is still good for [module_udp_fini] when it returns. *)
Theorem run_keeps_the_context fuel rd wr ctrl ud w :
  wlp (module_udp_run os fuel rd wr ctrl ud) w (λ _ w',
    ∃ evs, w_trace w' = w_trace w ++ evs ∧
           Forall (λ ev : event, is_io_call ev.1 = true) evs ∧
           evs ≫= ainfo_taken = [] ∧ evs ≫= ainfo_given = [] ∧
           evs ≫= sock_taken = [] ∧ evs ≫= sock_given = [] ∧
           evs ≫= mem_taken = [] ∧ evs ≫= mem_given = []).
Proof.
  intros rc w' Hrun.
  apply module_udp_run_io in Hrun as (evs & Htr & Hio).
  exists evs. split; [done|]. split; [done|].
  by apply io_calls_hold_no_resources.
Qed.

End Forwarding.

(** ** Set-up, tear-down and the life of the module *)

Section Lifecycle.
Variable os : oracle.
Variable is_true : string → bool.
Variable fresh : Z.

(** X2: [udp_ainfo_get] makes one call, the lookup of the host and port
    with the hints of a UDP datagram socket, and returns 0 or
    [-ENOPROTOOPT]: 0 exactly when the lookup returned 0, and then the
    caller gets the pointer that the lookup stored; otherwise NULL. *)
Theorem udp_ainfo_get_codes host port w :
  ∃ rc ainfo a,
    udp_ainfo_get os host port w
    = Some ((rc, ainfo),
            World (w_trace w ++ [(ainfo_lookup host port, a)]) (a_errno a)) ∧
    a = os (w_trace w) (ainfo_lookup host port) ∧
    (rc = 0 ∨ rc = - ENOPROTOOPT) ∧
    (rc = 0 ↔ a_ret a = 0) ∧
    (rc = 0 → ainfo = (λ p, AddrinfoRef p (a_ai a)) <$> a_ptr a) ∧
    (rc ≠ 0 → ainfo = None).
Proof.
  unfold udp_ainfo_get. fold (ainfo_lookup host port).
  rewrite (bind_eq _ _ _ _ _ (sys_eq _ _ _)).
  set (a := os (w_trace w) (ainfo_lookup host port)).
  destruct (decide (a_ret a = 0)) as [Hrc|Hrc].
  - rewrite bool_decide_eq_false_2 by (by intros []).
    eexists _, _, a. split; [reflexivity|]. rewrite Hrc. by repeat split; auto.
  - rewrite bool_decide_eq_true_2 by done.
    eexists _, _, a. split; [reflexivity|].
    repeat split; auto; try done.
Qed.

(** X3: when [udp_sock_new] returns 0, the descriptor it stores is not
    negative, it is the one socket that was created and it was not closed;
    it was bound, with success, to the address that the lookup of the local
    port gave; and the address list of that lookup has been given back. *)
Theorem udp_sock_new_success port sock w sock' w' :
  errno_set os →
  udp_sock_new os port sock w = Some ((0, sock'), w') →
  0 ≤ sock' ∧
  ∃ evs aL aB,
    w_trace w' = w_trace w ++ evs ∧
    evs ≫= sock_taken = [sock'] ∧ evs ≫= sock_given = [] ∧
    evs ≫= ainfo_taken = evs ≫= ainfo_given ∧
    (ainfo_lookup None port, aL) ∈ evs ∧
    (bind sock' (ai_addr (a_ai aL)) (ai_addrlen (a_ai aL)), aB) ∈ evs ∧
    a_ret aB = 0.
Proof.
  intros Hes Hnew.
  apply udp_sock_new_wlp in Hnew
    as (evs & Htr & Hai & _ & _ & Hsucc & Hset).
  destruct (Hsucc eq_refl) as (aL & pL & aS & aB & aF & -> & HretL & HpL & ->).
  destruct (Hset Hes) as [Hnf _].
  assert (¬ a_ret aS < 0 ∧ ¬ a_ret aB ≠ 0) as [HS HB].
  { split; intros Hbad; (apply Hnf; [|done]).
    - apply Exists_cons_tl, Exists_cons_hd. exact Hbad.
    - do 2 apply Exists_cons_tl. apply Exists_cons_hd. exact Hbad. }
  split; [lia|]. eexists _, aL, aB. split; [exact Htr|].
  split; [|split; [done|split; [done|]]].
  - unfold sock_taken; cbn. by rewrite bool_decide_eq_false_2.
  - split; [by left|]. split; [do 2 right; by left|].
    by destruct (decide (a_ret aB = 0)).
Qed.

(** X4: with a resolver that stores a list when it succeeds,
    [udp_sock_new] always returns (it reads the address list only after a
    successful lookup); when it returns an error, the address list it
    resolved has been given back and the socket it created has been
    closed. *)
Theorem udp_sock_new_failure port sock w :
  resolver_sound os → errno_set os →
  ∃ rc sock' evs e,
    udp_sock_new os port sock w
    = Some ((rc, sock'), World (w_trace w ++ evs) e) ∧
    (rc ≠ 0 → balanced evs).
Proof.
  intros Hrs Hes.
  destruct (udp_sock_new_total os port sock w Hrs)
    as ([rc sock'] & [tr e] & Hnew & _).
  pose proof (udp_sock_new_wlp os port sock w _ _ Hnew)
    as (evs & Htr & Hai & Hmt & Hmg & _ & Hset).
  cbn [w_trace] in Htr. subst tr. exists rc, sock', evs, e.
  split; [done|]. intros Hrc. destruct (Hset Hes) as [_ Hsock].
  unfold balanced. by rewrite Hai, Hmt, Hmg, (Hsock Hrc).
Qed.

(** X5: when [pppoat_alloc] returns NULL, [module_udp_init] returns
    [-ENOMEM]; the allocation is its only call, and the user data of the
    caller is as it was. *)
Theorem init_no_memory conf ud w :
  let a := os (w_trace w) pppoat_alloc in
  a_ptr a = None →
  module_udp_init os is_true fresh conf ud w
  = Some ((- ENOMEM, ud), World (w_trace w ++ [(pppoat_alloc, a)]) (a_errno a)).
Proof.
  intros a Hptr. unfold module_udp_init.
  destruct (endpoints_of _) as [[sport dport] dhost].
  rewrite (bind_eq _ _ _ _ _ (sys_eq _ _ _)). fold a. rewrite Hptr.
  reflexivity.
Qed.

(** X6: when the lookup of the remote host fails, [module_udp_init]
    returns [-ENOPROTOOPT] after three calls: the allocation, the lookup and
    the release of the context.  No socket is created, no address list is
    released (there is none), and the user data of the caller is as it
    was. *)
Theorem init_remote_unresolved conf ud w p :
  let type := node_type_of is_true conf in
  let cR := ainfo_lookup (Some (endpoints_of type).2) (endpoints_of type).1.2 in
  let aA := os (w_trace w) pppoat_alloc in
  let h1 := w_trace w ++ [(pppoat_alloc, aA)] in
  let aR := os h1 cR in
  let h2 := h1 ++ [(cR, aR)] in
  let aF := os h2 (pppoat_free p) in
  a_ptr aA = Some p →
  a_ret aR ≠ 0 →
  module_udp_init os is_true fresh conf ud w
  = Some ((- ENOPROTOOPT, ud),
          World (h2 ++ [(pppoat_free p, aF)]) (a_errno aF)).
Proof.
  intros type cR aA h1 aR h2 aF Hptr Hret. subst cR aA h1 aR h2 aF.
  apply wp_eq. unfold module_udp_init, udp_ainfo_get, udp_ainfo_put.
  fold type. destruct (endpoints_of type) as [[sport dport] dhost].
  cbn [fst snd] in *. fold (ainfo_lookup (Some dhost) dport).
  wp_go; subst; cbn [w_trace] in *; try rewrite Hptr in *; simplify_eq;
    try done; try (split; reflexivity);
    exfalso; unfold P_ERR, ENOPROTOOPT in *; lia.
Qed.

Lemma module_udp_init_ctx_valid conf ud w :
  resolver_sound os →
  wp (module_udp_init os is_true fresh conf ud) w (λ '(rc, ud') _,
    rc = 0 → ∃ p ctx r, ud' = Some (CtxRef p ctx) ∧ uc_ainfo ctx = Some r).
Proof.
  intros Hrs. unfold module_udp_init, udp_ainfo_get, udp_ainfo_put.
  destruct (endpoints_of (node_type_of is_true conf))
    as [[sport dport] dhost].
  wp_go; try done.
  all: try (eapply wp_mono; [by apply udp_sock_new_total|];
            intros [??] ? _; wp_go; try done).
  all: intros Hz; try done;
         try (exfalso; unfold P_ERR, ENOPROTOOPT, ENOMEM in *; lia).
  all: match goal with
       | H : ?a = os _ (getaddrinfo (Some _) _ _),
         Hn : ¬ a_ret ?a ≠ 0 |- _ =>
           assert (a_ret a = 0) as Hret0 by lia;
           destruct (a_ptr a) eqn:Hptr;
           [by eauto|exfalso; eauto using resolver_sound_ptr]
       end.
Qed.

Lemma init_owns conf ud w ud' w' :
  resolver_sound os → errno_set os →
  module_udp_init os is_true fresh conf ud w = Some ((0, ud'), w') →
  ∃ p ctx r evs,
    ud' = Some (CtxRef p ctx) ∧
    uc_ainfo ctx = Some r ∧
    0 ≤ uc_sock ctx ∧
    w_trace w' = w_trace w ++ evs ∧
    evs ≫= ainfo_taken ≡ₚ r :: evs ≫= ainfo_given ∧
    evs ≫= sock_taken = [uc_sock ctx] ∧ evs ≫= sock_given = [] ∧
    evs ≫= mem_taken = [p] ∧ evs ≫= mem_given = [].
Proof.
  intros Hrs Hes Hinit.
  destruct (module_udp_init_ctx_valid conf ud w Hrs)
    as ([rc0 ud0] & w0 & Hinit0 & Hvalid).
  rewrite Hinit in Hinit0. injection Hinit0 as <- <- <-.
  destruct (Hvalid eq_refl) as (p & ctx & r & Hud & Hr).
  pose proof (module_udp_init_wlp os is_true fresh conf ud w _ _ Hinit)
    as (evs & Htr & Hok & Hset).
  destruct (Hok eq_refl)
    as (aA & p' & aR & aL & pL & aS & aB & aF
        & -> & HpA & HretR & HretL & HpL & Hud').
  destruct (Hset Hes) as [Hnf _].
  assert (¬ a_ret aS < 0) as HS.
  { intros Hbad. apply Hnf; [|done].
    do 3 apply Exists_cons_tl. apply Exists_cons_hd. exact Hbad. }
  rewrite Hud' in Hud. injection Hud as -> <-. cbn [uc_ainfo uc_sock] in *.
  eexists p, _, r, _. split; [done|]. cbn [uc_ainfo uc_sock].
  split; [done|]. split; [lia|]. split; [exact Htr|].
  unfold ainfo_lookup, ainfo_taken, ainfo_given, sock_taken, sock_given,
    mem_taken, mem_given; cbn.
  rewrite HretR, HretL, HpL, HpA.
  rewrite !bool_decide_eq_true_2 by done.
  rewrite bool_decide_eq_false_2 by done.
  destruct (a_ptr aR) as [q|]; [|done]. injection Hr as <-. cbn.
  split; [reflexivity|done].
Qed.

(** X7: what a successful [module_udp_init] leaves with the caller: a
    context with a non-null remote address list and a descriptor that is
    not negative.  Of everything init took, exactly these are not given
    back: that address list, that one socket and the memory of the
    context. *)
Theorem init_success_owns conf ud w ud' w' :
  resolver_sound os → errno_set os →
  module_udp_init os is_true fresh conf ud w = Some ((0, ud'), w') →
  ∃ p ctx r evs,
    ud' = Some (CtxRef p ctx) ∧
    uc_ainfo ctx = Some r ∧
    0 ≤ uc_sock ctx ∧
    w_trace w' = w_trace w ++ evs ∧
    evs ≫= ainfo_taken ≡ₚ r :: evs ≫= ainfo_given ∧
    evs ≫= sock_taken = [uc_sock ctx] ∧ evs ≫= sock_given = [] ∧
    evs ≫= mem_taken = [p] ∧ evs ≫= mem_given = [].
Proof. apply init_owns. Qed.

(** X8: [module_udp_fini] on the context of a successful
    [module_udp_init] returns, and after it every address list, socket and
    memory block that the two took has been given back once. *)
Theorem init_then_fini_is_balanced conf ud w ud' w' :
  resolver_sound os → errno_set os →
  module_udp_init os is_true fresh conf ud w = Some ((0, ud'), w') →
  ∃ ctx w'' evs,
    ud' = Some ctx ∧
    module_udp_fini os ctx w' = Some (tt, w'') ∧
    w_trace w'' = w_trace w ++ evs ∧
    balanced evs.
Proof.
  intros Hrs Hes Hinit.
  destruct (init_owns conf ud w ud' w' Hrs Hes Hinit)
    as (p & ctx & r & evs & -> & Hr & _ & Htr & Hai & Hst & Hsg & Hmt & Hmg).
  eexists (CtxRef p ctx), _, _. split; [done|].
  split.
  { unfold module_udp_fini. cbv zeta. cbn [cp_val cp_addr]. rewrite Hr.
    reflexivity. }
  cbn [w_trace]. split.
  { rewrite Htr, <- !app_assoc. reflexivity. }
  unfold balanced. rewrite !bind_app, Hai, Hst, Hsg, Hmt, Hmg.
  split; [|done].
  change (r :: (evs ≫= ainfo_given) ++ [] ≡ₚ (evs ≫= ainfo_given) ++ [r]).
  rewrite app_nil_r. apply Permutation_cons_append.
Qed.
(** X9: the life of the module.  After a successful [module_udp_init],
    a [module_udp_run] on its context that returns, with whatever error, and
    [module_udp_fini], every address list, socket and memory block taken
    since the start has been given back once. *)
Theorem module_lifecycle_is_balanced conf ud w ctx w1 fuel rd wr ctrl rc w2 :
  resolver_sound os → errno_set os →
  module_udp_init os is_true fresh conf ud w = Some ((0, Some ctx), w1) →
  module_udp_run os fuel rd wr ctrl ctx w1 = Some (rc, w2) →
  ∃ w3 evs,
    module_udp_fini os ctx w2 = Some (tt, w3) ∧
    w_trace w3 = w_trace w ++ evs ∧
    balanced evs.
Proof.
  intros Hrs Hes Hinit Hrun.
  destruct (init_owns conf ud w _ w1 Hrs Hes Hinit)
    as (p & c & r & evs & [= ->] & Hr & _ & Htr & Hai & Hst & Hsg & Hmt & Hmg).
  apply module_udp_run_io in Hrun as (evs2 & Htr2 & Hio).
  apply io_calls_hold_no_resources in Hio as (H1 & H2 & H3 & H4 & H5 & H6).
  eexists _, _. split.
  { unfold module_udp_fini. cbv zeta. cbn [cp_val cp_addr]. rewrite Hr.
    reflexivity. }
  cbn [w_trace]. split.
  { rewrite Htr2, Htr, <- !app_assoc. reflexivity. }
  unfold balanced.
  rewrite !bind_app, Hai, Hst, Hsg, Hmt, Hmg, H1, H2, H3, H4, H5, H6.
  split; [|done].
  change (r :: (evs ≫= ainfo_given) ++ [] ≡ₚ (evs ≫= ainfo_given) ++ [r]).
  rewrite app_nil_r. apply Permutation_cons_append.
Qed.

End Lifecycle.

(** ** The loop on two environments *)

(** C2: the link delivers three bytes, [sendto] fails with EAGAIN and the
    wait for a writable socket returns 1, the number of ready descriptors:
    [module_udp_run] returns 1.  The datagram is not offered again; the
    wait is the last call. *)
Theorem run_wouldblock_send_ends_run :
  ∃ w', module_udp_run os_wouldblock 2 3 4 9 ctx0 world0 = Some (1, w') ∧
        map (λ ev, (ev.1, a_ret ev.2)) (w_trace w')
        = [(pppoat_util_fd_nonblock_set 3 true, 0);
           (pppoat_util_fd_nonblock_set 5 true, 0);
           (run_select 3 5, 1);
           (run_read 3, 3);
           (sendto 5 [Byte.x01; Byte.x02; Byte.x03] 3 0 [] 0, -1);
           (pppoat_util_select 5 None (Some (FD_SET 5 FD_ZERO)), 1)].
Proof. eexists. split; vm_compute; reflexivity. Qed.

(** C4: the wait fails with [-ENOMEM] and leaves both descriptors in the
    set; the link has three bytes and the socket takes them: the error is
    gone, the socket is read, a second round starts, and what
    [module_udp_run] returns in the end is [-EPIPE] from that round. *)
Theorem run_select_error_is_overwritten :
  ∃ w', module_udp_run os_select_fails 3 3 4 9 ctx0 world0
        = Some (- EPIPE, w') ∧
        map (λ ev, (ev.1, a_ret ev.2)) (w_trace w')
        = [(pppoat_util_fd_nonblock_set 3 true, 0);
           (pppoat_util_fd_nonblock_set 5 true, 0);
           (run_select 3 5, - ENOMEM);
           (run_read 3, 3);
           (sendto 5 [Byte.x01; Byte.x02; Byte.x03] 3 0 [] 0, 3);
           (run_recv 5, -1);
           (run_select 3 5, 1);
           (run_read 3, 0)].
Proof. eexists. split; vm_compute; reflexivity. Qed.

(** ** The theorems at concrete inputs *)

Lemma udp_buf_send_sends_all_witness :
  let r := udp_buf_send os_slow_socket 6 (cp_val ctx0) five_bytes 5 world0 in
  sendto_bounded os_slow_socket ∧
  1 ≤ 5 ≤ 65507 ∧
  r = Some (0, outcome_world r) ∧
  ∃ ainfo evs,
    uc_ainfo (cp_val ctx0) = Some ainfo ∧
    w_trace (outcome_world r) = w_trace world0 ++ evs ∧
    Forall (λ ev, is_send_call (cp_val ctx0) ainfo ev.1) evs ∧
    sent_total evs = 5 ∧
    sent_bytes evs = take (Z.to_nat 5) five_bytes.
Proof.
  intros r.
  assert (sendto_bounded os_slow_socket) as Hb.
  { intros h fd buf len flags addr addrlen Hlen. unfold os_slow_socket.
    destruct (length h =? 0)%nat; [simpl; lia|].
    destruct (length h =? 2)%nat; simpl; lia. }
  assert (1 ≤ 5 ≤ 65507) as Hlen by lia.
  assert (r = Some (0, outcome_world r)) as Hr by (vm_compute; reflexivity).
  split; [done|]. split; [done|]. split; [done|].
  apply (udp_buf_send_sends_all os_slow_socket 6 (cp_val ctx0) five_bytes 5
           world0 (outcome_world r) Hb Hlen Hr).
Defined.

Lemma run_zero_read_is_broken_pipe_witness :
  let os := os_link_closed in
  let w := world_started in
  let a1 := os (w_trace w) (run_select 3 5) in
  let h1 := w_trace w ++ [(run_select 3 5, a1)] in
  let a2 := os h1 (run_read 3) in
  FD_ISSET 3 (a_rfds a1) = true ∧
  a_ret a2 = 0 ∧
  module_udp_run_loop os 1 3 4 (cp_val ctx0) 5 buf_fresh 0 w
  = Some (- EPIPE, World (h1 ++ [(run_read 3, a2)]) (a_errno a2)).
Proof.
  intros os w a1 h1 a2.
  assert (FD_ISSET 3 (a_rfds a1) = true) as H1 by (vm_compute; reflexivity).
  assert (a_ret a2 = 0) as H2 by (vm_compute; reflexivity).
  split; [done|]. split; [done|].
  apply (run_zero_read_is_broken_pipe os 0 3 4 (cp_val ctx0) 5 buf_fresh w
           H1 H2).
Defined.

Lemma init_role_and_endpoints_witness :
  let r := module_udp_init os_all_good non_empty 0 conf_server None world0 in
  let ud' := (outcome_value (0, None) r).2 in
  r = Some ((0, ud'), outcome_world r) ∧
  node_type_of non_empty conf_server = PPPOAT_NODE_MASTER ∧
  ∃ evs, w_trace (outcome_world r) = w_trace world0 ++ evs ∧
         init_success PPPOAT_NODE_MASTER evs ud'.
Proof.
  intros r ud'.
  assert (r = Some ((0, ud'), outcome_world r)) as Hr
    by (vm_compute; reflexivity).
  split; [done|]. split; [reflexivity|].
  destruct (init_role_and_endpoints os_all_good non_empty 0 conf_server None
              world0) as (_ & _ & _ & _ & Hinit).
  exact (Hinit _ _ Hr eq_refl).
Defined.

Lemma init_failure_releases_everything_witness :
  resolver_sound os_port_taken ∧
  errno_set os_port_taken ∧
  ∃ rc ud' evs e,
    module_udp_init os_port_taken non_empty 0 conf_server None world0
    = Some ((rc, ud'), World (w_trace world0 ++ evs) e) ∧
    (Exists socket_failed evs → rc ≠ 0) ∧
    (rc ≠ 0 → balanced evs ∧ ud' = None).
Proof.
  assert (resolver_sound os_port_taken) as Hrs.
  { intros h host service hints _. simpl. by eexists. }
  assert (errno_set os_port_taken) as Hes.
  { split; intros; simpl in *; lia. }
  split; [done|]. split; [done|].
  apply (init_failure_releases_everything os_port_taken non_empty 0
           conf_server None world0 Hrs Hes).
Defined.

Lemma run_never_returns_zero_witness :
  let r := module_udp_run os_link_closed 1 3 4 9 ctx0 world0 in
  r = Some (- EPIPE, outcome_world r) ∧ - EPIPE ≠ 0.
Proof.
  intros r.
  assert (r = Some (- EPIPE, outcome_world r)) as Hr
    by (vm_compute; reflexivity).
  split; [done|].
  apply (run_never_returns_zero os_link_closed 1 3 4 9 ctx0 world0 (- EPIPE)
           (outcome_world r) Hr).
Defined.

Lemma run_empty_datagram_is_ignored_witness :
  let os := os_empty_datagram in
  let w := world_started in
  let a1 := os (w_trace w) (run_select 3 5) in
  let w0 := World (w_trace w ++ [(run_select 3 5, a1)]) (a_errno a1) in
  let rc0 := if 0 <? a_ret a1 then 0 else a_ret a1 in
  let a := os (w_trace w0) (run_recv 5) in
  let w' := World (w_trace w0 ++ [(run_recv 5, a)]) (a_errno a) in
  module_udp_run_link os 0 3 (cp_val ctx0) (a_rfds a1) rc0 buf_fresh w0
  = Some ((0, buf_fresh), w0) ∧
  FD_ISSET 5 (a_rfds a1) = true ∧
  a_ret a = 0 ∧
  module_udp_run_sock os 4 5 (a_rfds a1) 0 buf_fresh w0
  = Some ((0, store (a_data a) buf_fresh), w') ∧
  module_udp_run_body os 0 3 4 (cp_val ctx0) 5 buf_fresh w
  = Some ((0, store (a_data a) buf_fresh), w') ∧
  (∃ evs, w_trace w' = w_trace w ++ evs ∧
          last evs = Some (run_recv 5, a) ∧
          Forall (λ ev, is_link_write ev.1 = false) evs) ∧
  module_udp_run_loop os 1 3 4 (cp_val ctx0) 5 buf_fresh 0 w
  = module_udp_run_loop os 0 3 4 (cp_val ctx0) 5
      (store (a_data a) buf_fresh) 0 w'.
Proof.
  intros os w a1 w0 rc0 a w'.
  assert (module_udp_run_link os 0 3 (cp_val ctx0) (a_rfds a1) rc0 buf_fresh w0
          = Some ((0, buf_fresh), w0)) as Hlink by (vm_compute; reflexivity).
  assert (FD_ISSET 5 (a_rfds a1) = true) as Hset by (vm_compute; reflexivity).
  assert (a_ret a = 0) as Hzero by reflexivity.
  split; [done|]. split; [done|]. split; [done|].
  apply (run_empty_datagram_is_ignored os 0 3 4 (cp_val ctx0) 5 buf_fresh w
           buf_fresh w0 Hlink Hset Hzero).
Defined.

Lemma udp_ainfo_get_lookup_failure_witness :
  let c := ainfo_lookup (Some "peer.example"%string) UDP_PORT_SLAVE in
  let a := os_no_name (w_trace world0) c in
  a_ret a ≠ 0 ∧
  udp_ainfo_get os_no_name (Some "peer.example"%string) UDP_PORT_SLAVE world0
  = Some ((- ENOPROTOOPT, None),
          World (w_trace world0 ++ [(c, a)]) (a_errno a)).
Proof.
  intros c a.
  assert (a_ret a ≠ 0) as Ha by (vm_compute; lia).
  split; [done|].
  apply (udp_ainfo_get_lookup_failure os_no_name (Some "peer.example"%string)
           UDP_PORT_SLAVE world0 Ha).
Defined.

Lemma snprintf_u_port_exact_witness :
  (UDP_PORT_MASTER < 65536)%N ∧
  snprintf_u 6 UDP_PORT_MASTER = pretty UDP_PORT_MASTER ∧
  (String.length (snprintf_u 6 UDP_PORT_MASTER) ≤ 5)%nat ∧
  ∀ q : N, (q < 65536)%N →
           snprintf_u 6 q = snprintf_u 6 UDP_PORT_MASTER → q = UDP_PORT_MASTER.
Proof.
  assert (UDP_PORT_MASTER < 65536)%N as H by (unfold UDP_PORT_MASTER; lia).
  split; [done|]. apply (snprintf_u_port_exact UDP_PORT_MASTER H).
Defined.

Lemma udp_sock_new_success_witness :
  let r := udp_sock_new os_all_good UDP_PORT_MASTER 0 world0 in
  let w' := outcome_world r in
  errno_set os_all_good ∧
  r = Some ((0, 5), w') ∧
  0 ≤ 5 ∧
  ∃ evs aL aB,
    w_trace w' = w_trace world0 ++ evs ∧
    evs ≫= sock_taken = [5] ∧ evs ≫= sock_given = [] ∧
    evs ≫= ainfo_taken = evs ≫= ainfo_given ∧
    (ainfo_lookup None UDP_PORT_MASTER, aL) ∈ evs ∧
    (bind 5 (ai_addr (a_ai aL)) (ai_addrlen (a_ai aL)), aB) ∈ evs ∧
    a_ret aB = 0.
Proof.
  intros r w'.
  assert (errno_set os_all_good) as Hes by (split; intros; simpl in *; lia).
  assert (r = Some ((0, 5), w')) as Hr by (vm_compute; reflexivity).
  split; [done|]. split; [done|].
  apply (udp_sock_new_success os_all_good UDP_PORT_MASTER 0 world0 5 w'
           Hes Hr).
Defined.

Lemma udp_sock_new_failure_witness :
  resolver_sound os_port_taken ∧
  errno_set os_port_taken ∧
  ∃ rc sock' evs e,
    udp_sock_new os_port_taken UDP_PORT_MASTER 0 world0
    = Some ((rc, sock'), World (w_trace world0 ++ evs) e) ∧
    (rc ≠ 0 → balanced evs).
Proof.
  assert (resolver_sound os_port_taken) as Hrs.
  { intros h host service hints _. simpl. by eexists. }
  assert (errno_set os_port_taken) as Hes.
  { split; intros; simpl in *; lia. }
  split; [done|]. split; [done|].
  apply (udp_sock_new_failure os_port_taken UDP_PORT_MASTER 0 world0 Hrs Hes).
Defined.

Lemma init_no_memory_witness :
  let a := os_no_memory (w_trace world0) pppoat_alloc in
  a_ptr a = None ∧
  module_udp_init os_no_memory non_empty 0 conf_server None world0
  = Some ((- ENOMEM, None),
          World (w_trace world0 ++ [(pppoat_alloc, a)]) (a_errno a)).
Proof.
  intros a.
  assert (a_ptr a = None) as Ha by reflexivity.
  split; [done|].
  apply (init_no_memory os_no_memory non_empty 0 conf_server None world0 Ha).
Defined.

Lemma init_remote_unresolved_witness :
  let os := os_no_route in
  let type := node_type_of non_empty conf_server in
  let cR := ainfo_lookup (Some (endpoints_of type).2) (endpoints_of type).1.2 in
  let aA := os (w_trace world0) pppoat_alloc in
  let h1 := w_trace world0 ++ [(pppoat_alloc, aA)] in
  let aR := os h1 cR in
  let h2 := h1 ++ [(cR, aR)] in
  let aF := os h2 (pppoat_free 7) in
  a_ptr aA = Some 7%positive ∧
  a_ret aR ≠ 0 ∧
  module_udp_init os non_empty 0 conf_server None world0
  = Some ((- ENOPROTOOPT, None),
          World (h2 ++ [(pppoat_free 7, aF)]) (a_errno aF)).
Proof.
  intros os type cR aA h1 aR h2 aF.
  assert (a_ptr aA = Some 7%positive) as HA by reflexivity.
  assert (a_ret aR ≠ 0) as HR by (vm_compute; lia).
  split; [done|]. split; [done|].
  apply (init_remote_unresolved os non_empty 0 conf_server None world0 7
           HA HR).
Defined.

Lemma init_success_owns_witness :
  let r := module_udp_init os_all_good non_empty 0 conf_server None world0 in
  let ud' := (outcome_value (0, None) r).2 in
  let w' := outcome_world r in
  resolver_sound os_all_good ∧
  errno_set os_all_good ∧
  r = Some ((0, ud'), w') ∧
  ∃ p ctx a evs,
    ud' = Some (CtxRef p ctx) ∧
    uc_ainfo ctx = Some a ∧
    0 ≤ uc_sock ctx ∧
    w_trace w' = w_trace world0 ++ evs ∧
    evs ≫= ainfo_taken ≡ₚ a :: evs ≫= ainfo_given ∧
    evs ≫= sock_taken = [uc_sock ctx] ∧ evs ≫= sock_given = [] ∧
    evs ≫= mem_taken = [p] ∧ evs ≫= mem_given = [].
Proof.
  intros r ud' w'.
  assert (resolver_sound os_all_good) as Hrs.
  { intros h host service hints _. simpl. by eexists. }
  assert (errno_set os_all_good) as Hes.
  { split; intros; simpl in *; lia. }
  assert (r = Some ((0, ud'), w')) as Hr by (vm_compute; reflexivity).
  split; [done|]. split; [done|]. split; [done|].
  apply (init_success_owns os_all_good non_empty 0 conf_server None world0
           ud' w' Hrs Hes Hr).
Defined.

Lemma init_then_fini_is_balanced_witness :
  let r := module_udp_init os_all_good non_empty 0 conf_server None world0 in
  let ud' := (outcome_value (0, None) r).2 in
  let w' := outcome_world r in
  resolver_sound os_all_good ∧
  errno_set os_all_good ∧
  r = Some ((0, ud'), w') ∧
  ∃ ctx w'' evs,
    ud' = Some ctx ∧
    module_udp_fini os_all_good ctx w' = Some (tt, w'') ∧
    w_trace w'' = w_trace world0 ++ evs ∧
    balanced evs.
Proof.
  intros r ud' w'.
  assert (resolver_sound os_all_good) as Hrs.
  { intros h host service hints _. simpl. by eexists. }
  assert (errno_set os_all_good) as Hes.
  { split; intros; simpl in *; lia. }
  assert (r = Some ((0, ud'), w')) as Hr by (vm_compute; reflexivity).
  split; [done|]. split; [done|]. split; [done|].
  apply (init_then_fini_is_balanced os_all_good non_empty 0 conf_server None
           world0 ud' w' Hrs Hes Hr).
Defined.

Lemma module_lifecycle_is_balanced_witness :
  let os := os_short_session in
  let r1 := module_udp_init os non_empty 0 conf_server None world0 in
  let ctx := CtxRef 7 (UdpCtx PPPOAT_NODE_MASTER
                         (Some (AddrinfoRef 2 (Addrinfo 0 2 SOCK_DGRAM
                                                 IPPROTO_UDP 16 []))) 5) in
  let w1 := outcome_world r1 in
  let r2 := module_udp_run os 1 3 4 9 ctx w1 in
  let w2 := outcome_world r2 in
  resolver_sound os ∧
  errno_set os ∧
  r1 = Some ((0, Some ctx), w1) ∧
  r2 = Some (- EPIPE, w2) ∧
  ∃ w3 evs,
    module_udp_fini os ctx w2 = Some (tt, w3) ∧
    w_trace w3 = w_trace world0 ++ evs ∧
    balanced evs.
Proof.
  intros os r1 ctx w1 r2 w2.
  assert (resolver_sound os) as Hrs.
  { intros h host service hints _. simpl. by eexists. }
  assert (errno_set os) as Hes.
  { split; intros; simpl in *; lia. }
  assert (r1 = Some ((0, Some ctx), w1)) as Hr1 by (vm_compute; reflexivity).
  assert (r2 = Some (- EPIPE, w2)) as Hr2 by (vm_compute; reflexivity).
  split; [done|]. split; [done|]. split; [done|]. split; [done|].
  apply (module_lifecycle_is_balanced os non_empty 0 conf_server None world0
           ctx w1 1 3 4 9 (- EPIPE) w2 Hrs Hes Hr1 Hr2).
Defined.

Lemma send_fatal_error_is_returned_witness :
  let os := scripted [returns (-1) ECONNREFUSED] in
  let ainfo := AddrinfoRef 2 addrinfo0 in
  let c := send_call (cp_val ctx0) ainfo five_bytes 5 in
  let a := os (w_trace world0) c in
  a_ret a < 0 ∧
  udp_error_is_recoverable (- a_errno a) = false ∧
  a_errno a ≠ 0 ∧
  udp_buf_send_loop os 1 (cp_val ctx0) ainfo five_bytes 5 0 world0
  = Some (- a_errno a, World (w_trace world0 ++ [(c, a)]) (a_errno a)).
Proof.
  intros os ainfo c a.
  assert (a_ret a < 0) as H1 by (vm_compute; reflexivity).
  assert (udp_error_is_recoverable (- a_errno a) = false) as H2
    by (vm_compute; reflexivity).
  assert (a_errno a ≠ 0) as H3 by (vm_compute; lia).
  split; [done|]. split; [done|]. split; [done|].
  apply (send_fatal_error_is_returned os 0 (cp_val ctx0) ainfo five_bytes 5
           world0 H1 H2 H3).
Defined.

Lemma send_interrupted_is_retried_witness :
  let os := scripted [returns (-1) EINTR; returns 5 0] in
  let ainfo := AddrinfoRef 2 addrinfo0 in
  let c := send_call (cp_val ctx0) ainfo five_bytes 5 in
  let a := os (w_trace world0) c in
  a_ret a < 0 ∧ a_errno a = EINTR ∧ 0 < 5 ∧
  udp_buf_send_loop os 2 (cp_val ctx0) ainfo five_bytes 5 0 world0
  = udp_buf_send_loop os 1 (cp_val ctx0) ainfo five_bytes 5 0
      (World (w_trace world0 ++ [(c, a)]) (a_errno a)).
Proof.
  intros os ainfo c a.
  assert (a_ret a < 0) as H1 by (vm_compute; reflexivity).
  assert (a_errno a = EINTR) as H2 by reflexivity.
  assert (0 < 5) as H3 by lia.
  split; [done|]. split; [done|]. split; [done|].
  apply (send_interrupted_is_retried os 1 (cp_val ctx0) ainfo five_bytes 5
           world0 H1 H2 H3).
Defined.

Lemma send_wouldblock_waits_witness :
  let os := scripted [returns (-1) EAGAIN; returns 0 0; returns 5 0] in
  let ctx := cp_val ctx0 in
  let ainfo := AddrinfoRef 2 addrinfo0 in
  let c := send_call ctx ainfo five_bytes 5 in
  let a := os (w_trace world0) c in
  let h1 := w_trace world0 ++ [(c, a)] in
  let a2 := os h1 (send_wait ctx) in
  let w2 := World (h1 ++ [(send_wait ctx, a2)]) (a_errno a2) in
  a_ret a < 0 ∧ (a_errno a = EAGAIN ∨ a_errno a = EWOULDBLOCK) ∧ 0 < 5 ∧
  udp_buf_send_loop os 2 ctx ainfo five_bytes 5 0 world0
  = if a_ret a2 =? 0
    then udp_buf_send_loop os 1 ctx ainfo five_bytes 5 0 w2
    else Some (a_ret a2, w2).
Proof.
  intros os ctx ainfo c a h1 a2 w2.
  assert (a_ret a < 0) as H1 by (vm_compute; reflexivity).
  assert (a_errno a = EAGAIN ∨ a_errno a = EWOULDBLOCK) as H2
    by (left; reflexivity).
  assert (0 < 5) as H3 by lia.
  split; [done|]. split; [done|]. split; [done|].
  apply (send_wouldblock_waits os 1 ctx ainfo five_bytes 5 world0 H1 H2 H3).
Defined.

Lemma udp_buf_send_returns_witness :
  sendto_bounded os_busy_socket ∧
  transient_only os_busy_socket ∧
  wait_succeeds os_busy_socket ∧
  takes_all_after os_busy_socket 4 ∧
  ∃ w', udp_buf_send os_busy_socket 5 (cp_val ctx0) five_bytes 5 world0
        = Some (0, w').
Proof.
  assert (sendto_bounded os_busy_socket) as Hb.
  { intros h fd buf len flags addr addrlen Hlen. unfold os_busy_socket.
    destruct (length h <? 4)%nat; simpl; lia. }
  assert (transient_only os_busy_socket) as Ht.
  { intros h fd buf len flags addr addrlen. unfold os_busy_socket.
    by destruct (length h <? 4)%nat. }
  assert (wait_succeeds os_busy_socket) as Hw by done.
  assert (takes_all_after os_busy_socket 4) as Hall.
  { intros h fd buf len flags addr addrlen Hn. unfold os_busy_socket.
    by rewrite (proj2 (Nat.ltb_ge _ _) Hn). }
  split; [done|]. split; [done|]. split; [done|]. split; [done|].
  apply (udp_buf_send_returns os_busy_socket 4 4 (cp_val ctx0)
           (AddrinfoRef 2 addrinfo0) five_bytes 5 world0 Hb Ht Hw Hall);
    [done|lia|simpl; lia].
Defined.

Lemma udp_buf_send_sends_prefix_witness :
  let r := udp_buf_send os_broken_socket 2 (cp_val ctx0) five_bytes 5 world0 in
  let w' := outcome_world r in
  sendto_bounded os_broken_socket ∧
  0 < 5 ∧
  r = Some (- ECONNREFUSED, w') ∧
  ∃ evs,
    w_trace w' = w_trace world0 ++ evs ∧
    0 ≤ sent_total evs ≤ 5 ∧
    sent_bytes evs = take (Z.to_nat (sent_total evs)) five_bytes.
Proof.
  intros r w'.
  assert (sendto_bounded os_broken_socket) as Hb.
  { intros h fd buf len flags addr addrlen Hlen. unfold os_broken_socket.
    destruct (length h =? 0)%nat; simpl; lia. }
  assert (0 < 5) as Hlen by lia.
  assert (r = Some (- ECONNREFUSED, w')) as Hr by (vm_compute; reflexivity).
  split; [done|]. split; [done|]. split; [done|].
  apply (udp_buf_send_sends_prefix os_broken_socket 2 (cp_val ctx0) five_bytes
           5 world0 (- ECONNREFUSED) w' Hb Hlen Hr).
Defined.

Lemma run_link_forwards_what_it_read_witness :
  let os := os_link_to_socket in
  let ctx := cp_val ctx0 in
  let a := os (w_trace world0) (run_read 3) in
  let r := module_udp_run_link os 2 3 ctx {[ 3 ]} 0 buf_fresh world0 in
  let buf' := (outcome_value (0, []) r).2 in
  let w' := outcome_world r in
  sendto_bounded os ∧
  FD_ISSET 3 {[ 3 ]} = true ∧
  0 < a_ret a ∧
  Z.of_nat (length (a_data a)) = a_ret a ∧
  r = Some ((0, buf'), w') ∧
  ∃ ainfo evs,
    uc_ainfo ctx = Some ainfo ∧
    w_trace w' = w_trace world0 ++ (run_read 3, a) :: evs ∧
    Forall (λ ev, is_send_call ctx ainfo ev.1) evs ∧
    sent_bytes evs = a_data a.
Proof.
  intros os ctx a r buf' w'.
  assert (sendto_bounded os) as Hb.
  { intros h fd buf len flags addr addrlen Hlen. simpl. lia. }
  assert (FD_ISSET 3 {[ 3 ]} = true) as Hset by (vm_compute; reflexivity).
  assert (0 < a_ret a) as Hpos by (vm_compute; reflexivity).
  assert (Z.of_nat (length (a_data a)) = a_ret a) as Hlen by reflexivity.
  assert (r = Some ((0, buf'), w')) as Hr by (vm_compute; reflexivity).
  split; [done|]. split; [done|]. split; [done|]. split; [done|].
  split; [done|].
  apply (run_link_forwards_what_it_read os 2 3 ctx {[ 3 ]} 0 buf_fresh world0
           buf' w' Hb Hset Hpos Hlen Hr).
Defined.

Lemma read_transient_is_absorbed_witness :
  let os := scripted [returns (-1) EINTR] in
  let a := os (w_trace world0) (run_read 3) in
  FD_ISSET 3 {[ 3 ]} = true ∧
  a_ret a < 0 ∧
  udp_error_is_recoverable (- a_errno a) = true ∧
  module_udp_run_link os 0 3 (cp_val ctx0) {[ 3 ]} 0 buf_fresh world0
  = Some ((0, store (a_data a) buf_fresh),
          World (w_trace world0 ++ [(run_read 3, a)]) (a_errno a)).
Proof.
  intros os a.
  assert (FD_ISSET 3 {[ 3 ]} = true) as Hset by (vm_compute; reflexivity).
  assert (a_ret a < 0) as Hret by (vm_compute; reflexivity).
  assert (udp_error_is_recoverable (- a_errno a) = true) as Hrec
    by reflexivity.
  split; [done|]. split; [done|]. split; [done|].
  apply (read_transient_is_absorbed os 0 3 (cp_val ctx0) {[ 3 ]} 0 buf_fresh
           world0 Hset Hret Hrec).
Defined.

Lemma run_read_error_ends_run_witness :
  let os := scripted [link_ready; returns (-1) 5] in
  let a1 := os (w_trace world0) (run_select 3 5) in
  let h1 := w_trace world0 ++ [(run_select 3 5, a1)] in
  let a2 := os h1 (run_read 3) in
  FD_ISSET 3 (a_rfds a1) = true ∧
  a_ret a2 < 0 ∧
  udp_error_is_recoverable (- a_errno a2) = false ∧
  a_errno a2 ≠ 0 ∧
  module_udp_run_loop os 1 3 4 (cp_val ctx0) 5 buf_fresh 0 world0
  = Some (- a_errno a2, World (h1 ++ [(run_read 3, a2)]) (a_errno a2)).
Proof.
  intros os a1 h1 a2.
  assert (FD_ISSET 3 (a_rfds a1) = true) as H1 by (vm_compute; reflexivity).
  assert (a_ret a2 < 0) as H2 by (vm_compute; reflexivity).
  assert (udp_error_is_recoverable (- a_errno a2) = false) as H3
    by reflexivity.
  assert (a_errno a2 ≠ 0) as H4 by (vm_compute; lia).
  split; [done|]. split; [done|]. split; [done|]. split; [done|].
  apply (run_read_error_ends_run os 0 3 4 (cp_val ctx0) 5 buf_fresh world0
           H1 H2 H3 H4).
Defined.

Lemma run_datagram_is_written_to_link_witness :
  let os := scripted [sock_ready; three_bytes; returns (- EPIPE) EPIPE] in
  let a1 := os (w_trace world0) (run_select 3 5) in
  let h1 := w_trace world0 ++ [(run_select 3 5, a1)] in
  let a2 := os h1 (run_recv 5) in
  let h2 := h1 ++ [(run_recv 5, a2)] in
  let c3 := pppoat_util_write 4 (a_data a2) (a_ret a2) in
  let a3 := os h2 c3 in
  let w3 := World (h2 ++ [(c3, a3)]) (a_errno a3) in
  0 ≤ a_ret a1 ∧
  FD_ISSET 3 (a_rfds a1) = false ∧
  FD_ISSET 5 (a_rfds a1) = true ∧
  0 < a_ret a2 ∧
  Z.of_nat (length (a_data a2)) = a_ret a2 ∧
  module_udp_run_loop os 1 3 4 (cp_val ctx0) 5 buf_fresh 0 world0
  = if a_ret a3 =? 0
    then module_udp_run_loop os 0 3 4 (cp_val ctx0) 5
           (store (a_data a2) buf_fresh) 0 w3
    else Some (a_ret a3, w3).
Proof.
  intros os a1 h1 a2 h2 c3 a3 w3.
  assert (0 ≤ a_ret a1) as H1 by (vm_compute; discriminate).
  assert (FD_ISSET 3 (a_rfds a1) = false) as H2 by (vm_compute; reflexivity).
  assert (FD_ISSET 5 (a_rfds a1) = true) as H3 by (vm_compute; reflexivity).
  assert (0 < a_ret a2) as H4 by (vm_compute; reflexivity).
  assert (Z.of_nat (length (a_data a2)) = a_ret a2) as H5 by reflexivity.
  split; [done|]. split; [done|]. split; [done|]. split; [done|].
  split; [done|].
  apply (run_datagram_is_written_to_link os 0 3 4 (cp_val ctx0) 5 buf_fresh
           world0 H1 H2 H3 H4 H5).
Defined.

Lemma recv_transient_is_absorbed_witness :
  let os := scripted [returns (-1) EAGAIN] in
  let a := os (w_trace world0) (run_recv 5) in
  FD_ISSET 5 {[ 5 ]} = true ∧
  a_ret a < 0 ∧
  udp_error_is_recoverable (- a_errno a) = true ∧
  module_udp_run_sock os 4 5 {[ 5 ]} 0 buf_fresh world0
  = Some ((0, store (a_data a) buf_fresh),
          World (w_trace world0 ++ [(run_recv 5, a)]) (a_errno a)).
Proof.
  intros os a.
  assert (FD_ISSET 5 {[ 5 ]} = true) as Hset by (vm_compute; reflexivity).
  assert (a_ret a < 0) as Hret by (vm_compute; reflexivity).
  assert (udp_error_is_recoverable (- a_errno a) = true) as Hrec
    by reflexivity.
  split; [done|]. split; [done|]. split; [done|].
  apply (recv_transient_is_absorbed os 4 5 {[ 5 ]} buf_fresh world0
           Hset Hret Hrec).
Defined.

Lemma run_recv_error_ends_run_witness :
  let os := scripted [sock_ready; returns (-1) ECONNREFUSED] in
  let a1 := os (w_trace world0) (run_select 3 5) in
  let h1 := w_trace world0 ++ [(run_select 3 5, a1)] in
  let a2 := os h1 (run_recv 5) in
  0 ≤ a_ret a1 ∧
  FD_ISSET 3 (a_rfds a1) = false ∧
  FD_ISSET 5 (a_rfds a1) = true ∧
  a_ret a2 < 0 ∧
  udp_error_is_recoverable (- a_errno a2) = false ∧
  a_errno a2 ≠ 0 ∧
  module_udp_run_loop os 1 3 4 (cp_val ctx0) 5 buf_fresh 0 world0
  = Some (- a_errno a2, World (h1 ++ [(run_recv 5, a2)]) (a_errno a2)).
Proof.
  intros os a1 h1 a2.
  assert (0 ≤ a_ret a1) as H1 by (vm_compute; discriminate).
  assert (FD_ISSET 3 (a_rfds a1) = false) as H2 by (vm_compute; reflexivity).
  assert (FD_ISSET 5 (a_rfds a1) = true) as H3 by (vm_compute; reflexivity).
  assert (a_ret a2 < 0) as H4 by (vm_compute; reflexivity).
  assert (udp_error_is_recoverable (- a_errno a2) = false) as H5
    by reflexivity.
  assert (a_errno a2 ≠ 0) as H6 by (vm_compute; lia).
  split; [done|]. split; [done|]. split; [done|]. split; [done|].
  split; [done|]. split; [done|].
  apply (run_recv_error_ends_run os 0 3 4 (cp_val ctx0) 5 buf_fresh world0
           H1 H2 H3 H4 H5 H6).
Defined.

Lemma select_error_is_returned_when_link_idle_witness :
  let os := scripted [returns (- ENOMEM) ENOMEM] in
  let a := os (w_trace world0) (run_select 3 5) in
  a_ret a < 0 ∧
  FD_ISSET 3 (a_rfds a) = false ∧
  module_udp_run_loop os 1 3 4 (cp_val ctx0) 5 buf_fresh 0 world0
  = Some (a_ret a,
          World (w_trace world0 ++ [(run_select 3 5, a)]) (a_errno a)).
Proof.
  intros os a.
  assert (a_ret a < 0) as H1 by (vm_compute; reflexivity).
  assert (FD_ISSET 3 (a_rfds a) = false) as H2 by (vm_compute; reflexivity).
  split; [done|]. split; [done|].
  apply (select_error_is_returned_when_link_idle os 0 3 4 (cp_val ctx0) 5
           buf_fresh world0 H1 H2).
Defined.

Lemma run_idle_round_goes_on_witness :
  let os := scripted [returns 0 0; link_ready; returns 0 0] in
  let a1 := os (w_trace world0) (run_select 3 5) in
  0 ≤ a_ret a1 ∧
  FD_ISSET 3 (a_rfds a1) = false ∧
  FD_ISSET 5 (a_rfds a1) = false ∧
  module_udp_run_loop os 2 3 4 (cp_val ctx0) 5 buf_fresh 0 world0
  = module_udp_run_loop os 1 3 4 (cp_val ctx0) 5 buf_fresh 0
      (World (w_trace world0 ++ [(run_select 3 5, a1)]) (a_errno a1)).
Proof.
  intros os a1.
  assert (0 ≤ a_ret a1) as H1 by (vm_compute; discriminate).
  assert (FD_ISSET 3 (a_rfds a1) = false) as H2 by (vm_compute; reflexivity).
  assert (FD_ISSET 5 (a_rfds a1) = false) as H3 by (vm_compute; reflexivity).
  split; [done|]. split; [done|]. split; [done|].
  apply (run_idle_round_goes_on os 1 3 4 (cp_val ctx0) 5 buf_fresh world0
           H1 H2 H3).
Defined.
